(** * The MCP Streamable HTTP client script [examples/python-mcp-client/example.py]

    A shallow embedding of the script: the Python values it handles, the
    part of [httpx] it calls, the request builder [jsonrpc] and the
    lifecycle [main], followed by the properties of the lifecycle. *)

From Stdlib Require Import ZArith List String Ascii Bool Lia PrimFloat Sorted.
Import ListNotations.

Open Scope string_scope.
Open Scope Z_scope.
Open Scope list_scope.

(** ** Python values *)

Module Py.

#[local] Set Warnings "-register-all".

(** The values [resp.json()] can produce, which are also the values the
    script puts in a request body.  A dict is an association list in
    insertion order whose keys are pairwise distinct. *)
Inductive json : Type :=
| JNull
| JBool (b : bool)
| JInt (z : Z)
| JFloat (f : float)
| JStr (s : string)
| JArr (items : list json)
| JObj (fields : list (string * json)).

Definition dict := list (string * json).

(** The exceptions the script can meet.  [RequestError] stands for whatever
    [client.post] or [client.delete] raises itself (connection refused,
    timeout, TLS failure).  [DictSliceError] stands for what subscripting a
    dict with a slice raises, which depends on the interpreter: [TypeError]
    up to Python 3.11, where a slice is unhashable, [KeyError] from 3.12
    on. *)
Inductive exn : Type :=
| RequestError
| HTTPStatusError (status : Z)
| JSONDecodeError
| UnicodeDecodeError
| RecursionError
| ValueError
| KeyError (key : json)
| IndexError
| TypeError
| AttributeError
| DictSliceError.

(** Python's [LookupError] is the common base class of [KeyError] and
    [IndexError]: the errors of a subscript with a string or an integer.
    ([DictSliceError] is left out, its class depending on the
    interpreter.) *)
Definition is_lookup_error (e : exn) : bool :=
  match e with
  | KeyError _ | IndexError => true
  | _ => false
  end.

Inductive outcome (A : Type) : Type :=
| Return (a : A)
| Raise (e : exn).

Arguments Return {A} a.
Arguments Raise {A} e.

Definition returns {A} (o : outcome A) : bool :=
  match o with Return _ => true | Raise _ => false end.

Fixpoint dict_lookup (k : string) (d : dict) : option json :=
  match d with
  | [] => None
  | (k', v) :: d' => if String.eqb k k' then Some v else dict_lookup k d'
  end.

(** [d[k] = v]: an existing key keeps its position, a new key goes last. *)
Fixpoint dict_setitem (k : string) (v : json) (d : dict) : dict :=
  match d with
  | [] => [(k, v)]
  | (k', v') :: d' =>
      if String.eqb k k' then (k', v) :: d' else (k', v') :: dict_setitem k v d'
  end.

(** Truth value of an object, as [if x:] tests it. *)
Definition truthy (v : json) : bool :=
  match v with
  | JNull => false
  | JBool b => b
  | JInt z => negb (z =? 0)
  | JFloat f => negb (PrimFloat.eqb f PrimFloat.zero)
  | JStr s => negb (String.eqb s "")
  | JArr items => match items with [] => false | _ => true end
  | JObj fields => match fields with [] => false | _ => true end
  end.

(** A [str] is held as its UTF-8 encoding (a lone surrogate as its
    three-byte form).  A character is a byte that is not a continuation
    byte, together with the continuation bytes that follow it; lengths,
    indices and slices of a [str] count characters, not bytes. *)
Definition is_continuation (c : ascii) : bool :=
  let n := N_of_ascii c in ((128 <=? n) && (n <? 192))%N.

(** [len(s)] *)
Fixpoint char_length (s : string) : nat :=
  match s with
  | EmptyString => 0%nat
  | String c s' =>
      if is_continuation c then char_length s' else S (char_length s')
  end.

(** [s[:n]]: the first [n] characters of [s]. *)
Fixpoint take_chars (n : nat) (s : string) : string :=
  match s with
  | EmptyString => EmptyString
  | String c s' =>
      if is_continuation c then String c (take_chars n s')
      else match n with
           | O => EmptyString
           | S n' => String c (take_chars n' s')
           end
  end.

(** The characters of [s], each as a string. *)
Fixpoint split_chars (s : string) : list string :=
  match s with
  | EmptyString => []
  | String c s' =>
      match s' with
      | EmptyString => [String c EmptyString]
      | String c' _ =>
          if is_continuation c' then
            match split_chars s' with
            | x :: xs => String c x :: xs
            | [] => [String c EmptyString]
            end
          else String c EmptyString :: split_chars s'
      end
  end.

Definition chars (s : string) : list json := map JStr (split_chars s).

(** A string begins at a character boundary. *)
Definition starts_character (s : string) : bool :=
  match s with
  | EmptyString => true
  | String c _ => negb (is_continuation c)
  end.

(** [v[k]] for a string key [k]. *)
Definition getitem_str (v : json) (k : string) : outcome json :=
  match v with
  | JObj fields =>
      match dict_lookup k fields with
      | Some x => Return x
      | None => Raise (KeyError (JStr k))
      end
  | _ => Raise TypeError
  end.

(** Position of index [i] in a sequence of [n] items; negative indices
    count from the end. *)
Definition seq_index (n : nat) (i : Z) : option nat :=
  if (0 <=? i) && (i <? Z.of_nat n) then Some (Z.to_nat i)
  else if (- Z.of_nat n <=? i) && (i <? 0) then Some (Z.to_nat (Z.of_nat n + i))
  else None.

Definition seq_getitem (items : list json) (i : Z) : outcome json :=
  match seq_index (List.length items) i with
  | Some p =>
      match nth_error items p with
      | Some x => Return x
      | None => Raise IndexError
      end
  | None => Raise IndexError
  end.

(** [v[i]] for an integer key [i].  The keys of a dict that comes from JSON
    are strings, so an integer is never one of them. *)
Definition getitem_int (v : json) (i : Z) : outcome json :=
  match v with
  | JArr items => seq_getitem items i
  | JStr s => seq_getitem (chars s) i
  | JObj _ => Raise (KeyError (JInt i))
  | _ => Raise TypeError
  end.

(** [v.get(k, default)]: only a dict has the method. *)
Definition get (v : json) (k : string) (default : json) : outcome json :=
  match v with
  | JObj fields =>
      match dict_lookup k fields with
      | Some x => Return x
      | None => Return default
      end
  | _ => Raise AttributeError
  end.

(** [v[:n]]: the first [n] characters of a string, the first [n] items of a
    list. *)
Definition slice_to (n : nat) (v : json) : outcome json :=
  match v with
  | JStr s => Return (JStr (take_chars n s))
  | JArr items => Return (JArr (firstn n items))
  | JObj _ => Raise DictSliceError
  | _ => Raise TypeError
  end.

Definition len (v : json) : outcome Z :=
  match v with
  | JStr s => Return (Z.of_nat (char_length s))
  | JArr items => Return (Z.of_nat (List.length items))
  | JObj fields => Return (Z.of_nat (List.length fields))
  | _ => Raise TypeError
  end.

(** The items a [for] loop visits. *)
Definition iter (v : json) : outcome (list json) :=
  match v with
  | JArr items => Return items
  | JStr s => Return (chars s)
  | JObj fields => Return (map (fun kv => JStr (fst kv)) fields)
  | _ => Raise TypeError
  end.

(** A printed line is a sequence of pieces.  [str(v)] of a string is the
    string; for the other values it is kept symbolic. *)
Inductive piece : Type :=
| Lit (s : string)
| StrOf (v : json).

Definition fmt (v : json) : piece :=
  match v with
  | JStr s => Lit s
  | _ => StrOf v
  end.

Definition line := list piece.

End Py.

Import Py.

(** ** The part of httpx the script uses *)

Module Httpx.

Inductive verb : Type := POST | DELETE.

(** A request as the script determines it: the verb, the URL, the headers
    given by the [headers=] argument and the value given by [json=]. *)
Record request : Type := mkRequest {
  req_verb : verb;
  req_url : string;
  req_headers : list (string * string);
  req_json : option json
}.

(** Why [resp.json()] cannot give a value: the content is not valid
    UTF-8, is not JSON, nests deeper than the interpreter recurses, or holds
    an integer with more digits than the interpreter converts. *)
Inductive body_fault : Type :=
| NotUnicode
| NotJson
| TooDeep
| HugeInteger.

(** The content of a response, as [resp.json()] sees it. *)
Inductive content : Type :=
| Decoded (j : json)
| Undecodable (f : body_fault).

Record response : Type := mkResponse {
  status_code : Z;
  resp_headers : list (string * string);
  resp_content : content
}.

(** The value of the body, when it has one. *)
Definition resp_body (r : response) : option json :=
  match resp_content r with
  | Decoded j => Some j
  | Undecodable _ => None
  end.

Definition fault_exn (f : body_fault) : exn :=
  match f with
  | NotUnicode => UnicodeDecodeError
  | NotJson => JSONDecodeError
  | TooDeep => RecursionError
  | HugeInteger => ValueError
  end.

Inductive reply : Type :=
| Answer (r : response)
| Failure.

(** The transport is the environment: it maps the requests sent so far in
    this client, the current one last, to what the current one gets. *)
Definition transport := list request -> reply.

(** What a run does, in order. *)
Inductive event : Type :=
| EvOpen
| EvRequest (r : request)
| EvPrint (l : line)
| EvClose.

Definition log := list event.

Fixpoint requests_of (l : log) : list request :=
  match l with
  | [] => []
  | EvRequest r :: l' => r :: requests_of l'
  | _ :: l' => requests_of l'
  end.

Fixpoint output_of (l : log) : list line :=
  match l with
  | [] => []
  | EvPrint p :: l' => p :: output_of l'
  | _ :: l' => output_of l'
  end.

(** Computations that talk to the transport, print and may raise. *)
Definition M (A : Type) : Type := transport -> log -> outcome A * log.

Definition ret {A} (a : A) : M A := fun _ l => (Return a, l).

Definition bind {A B} (m : M A) (k : A -> M B) : M B :=
  fun tr l =>
    match m tr l with
    | (Return a, l') => k a tr l'
    | (Raise e, l') => (Raise e, l')
    end.

Definition lift {A} (o : outcome A) : M A := fun _ l => (o, l).

Definition print (p : line) : M unit := fun _ l => (Return tt, l ++ [EvPrint p]).

Definition send (r : request) : M response :=
  fun tr l =>
    let l' := l ++ [EvRequest r] in
    match tr (requests_of l') with
    | Answer resp => (Return resp, l')
    | Failure => (Raise RequestError, l')
    end.

(** [client.post(url, json=body, headers=headers)] *)
Definition client_post (url : string) (body : json)
    (headers : list (string * string)) : M response :=
  send (mkRequest POST url headers (Some body)).

(** [client.delete(url, headers=headers)] *)
Definition client_delete (url : string) (headers : list (string * string))
    : M response :=
  send (mkRequest DELETE url headers None).

(** [with httpx.Client(timeout=30) as client: body]: the client is closed
    when the block is left, normally or by an exception, and the exception
    goes on. *)
Definition with_client {A} (body : M A) : M A :=
  fun tr l =>
    let (o, l') := body tr (l ++ [EvOpen]) in (o, l' ++ [EvClose]).

Definition is_success (r : response) : bool :=
  (200 <=? status_code r) && (status_code r <=? 299).

(** [resp.raise_for_status()] *)
Definition raise_for_status (r : response) : outcome unit :=
  if is_success r then Return tt else Raise (HTTPStatusError (status_code r)).

(** [resp.json()] *)
Definition resp_json (r : response) : outcome json :=
  match resp_content r with
  | Decoded j => Return j
  | Undecodable f => Raise (fault_exn f)
  end.

Definition lower_ascii (c : ascii) : ascii :=
  let n := N_of_ascii c in
  if ((65 <=? n) && (n <=? 90))%N then ascii_of_N (n + 32) else c.

Fixpoint lower (s : string) : string :=
  match s with
  | EmptyString => EmptyString
  | String c s' => String (lower_ascii c) (lower s')
  end.

(** [headers[key]] on a response: names compare without case, and the
    values of a repeated header are joined. *)
Definition headers_getitem (h : list (string * string)) (key : string)
    : outcome string :=
  match filter (fun kv => String.eqb (lower (fst kv)) (lower key)) h with
  | [] => Raise (KeyError (JStr key))
  | items => Return (String.concat ", " (map snd items))
  end.

End Httpx.

Import Httpx.

Declare Scope script_scope.
Delimit Scope script_scope with script.
Notation "x <- m ;; k" := (bind m (fun x => k))
  (at level 61, m at next level, right associativity) : script_scope.
Notation "m ;; k" := (bind m (fun _ => k))
  (at level 61, right associativity) : script_scope.
Open Scope script_scope.

(** ** The script *)

Definition BASE_URL : string := "http://localhost:3000".

(** [jsonrpc(method, params, req_id)]: build a JSON-RPC 2.0 request body. *)
Definition jsonrpc (method : string) (params : option dict) (req_id : Z) : dict :=
  let body := [("jsonrpc", JStr "2.0"); ("id", JInt req_id); ("method", JStr method)] in
  let is_true := match params with Some p => truthy (JObj p) | None => truthy JNull end in
  if is_true then
    match params with
    | Some p => dict_setitem "params" (JObj p) body
    | None => body
    end
  else body.

(** A call of [jsonrpc] that may leave out [params] and [req_id], which
    then take the defaults of the signature. *)
Definition jsonrpc_call (method : string) (params : option (option dict))
    (req_id : option Z) : dict :=
  jsonrpc method
    (match params with Some p => p | None => None end)
    (match req_id with Some i => i | None => 1 end).

Definition newline : string := String (ascii_of_nat 10) EmptyString.

(** The headers every request after initialize is given. *)
Definition session_headers (session_id : string) : list (string * string) :=
  [("Mcp-Session-Id", session_id)].

(** 1. Initialize: lines 28 to 33. *)
Definition step_initialize (url : string) : M (string * json) :=
  resp <- client_post url (JObj (jsonrpc_call "initialize" None None)) [] ;;
  lift (raise_for_status resp) ;;
  session_id <- lift (headers_getitem (resp_headers resp) "mcp-session-id") ;;
  body <- lift (resp_json resp) ;;
  result <- lift (getitem_str body "result") ;;
  server_info <- lift (getitem_str result "serverInfo") ;;
  name <- lift (getitem_str server_info "name") ;;
  version <- lift (getitem_str server_info "version") ;;
  print [Lit "Connected to "; fmt name; Lit " v"; fmt version] ;;
  print [Lit "Session: "; Lit session_id; Lit newline] ;;
  ret (session_id, server_info).

Definition initialized_notification : json :=
  JObj [("jsonrpc", JStr "2.0"); ("method", JStr "notifications/initialized")].

(** 2. The initialized notification: line 38.  The response is dropped. *)
Definition step_notify_initialized (url : string)
    (headers : list (string * string)) : M unit :=
  client_post url initialized_notification headers ;;
  ret tt.

(** The body of the loop over the tools: line 46. *)
Definition print_tool (t : json) : M unit :=
  name <- lift (getitem_str t "name") ;;
  description <- lift (get t "description" (JStr "")) ;;
  preview <- lift (slice_to 80 description) ;;
  print [Lit "  - "; fmt name; Lit ": "; fmt preview].

Fixpoint for_each (body : json -> M unit) (items : list json) : M unit :=
  match items with
  | [] => ret tt
  | t :: items' => body t ;; for_each body items'
  end.

(** 3. List the tools: lines 41 to 47. *)
Definition step_list_tools (url : string) (headers : list (string * string))
    : M unit :=
  resp <- client_post url (JObj (jsonrpc_call "tools/list" None (Some 2))) headers ;;
  lift (raise_for_status resp) ;;
  body <- lift (resp_json resp) ;;
  result <- lift (getitem_str body "result") ;;
  tools <- lift (getitem_str result "tools") ;;
  n <- lift (len tools) ;;
  print [Lit "Available tools ("; StrOf (JInt n); Lit "):"] ;;
  items <- lift (iter tools) ;;
  for_each print_tool items ;;
  print [].

Definition ls_params : dict :=
  [("name", JStr "ls"); ("arguments", JObj [("path", JStr ".")])].

(** What the script does with the result of the call: lines 57 to 62. *)
Definition report_result (result : json) : M unit :=
  is_error <- lift (get result "isError" JNull) ;;
  (if truthy is_error then
     content <- lift (getitem_str result "content") ;;
     item <- lift (getitem_int content 0) ;;
     text <- lift (getitem_str item "text") ;;
     print [Lit "Tool error: "; fmt text]
   else
     print [Lit "ls result:"] ;;
     content <- lift (getitem_str result "content") ;;
     item <- lift (getitem_int content 0) ;;
     text <- lift (getitem_str item "text") ;;
     print [fmt text]) ;;
  print [].

(** 4. Call a tool: lines 50 to 62. *)
Definition step_call_tool (url : string) (headers : list (string * string))
    : M unit :=
  resp <- client_post url
            (JObj (jsonrpc_call "tools/call" (Some (Some ls_params)) (Some 3)))
            headers ;;
  lift (raise_for_status resp) ;;
  body <- lift (resp_json resp) ;;
  result <- lift (getitem_str body "result") ;;
  report_result result.

(** 5. Close the session: lines 65 and 66. *)
Definition step_close (url : string) (headers : list (string * string))
    : M unit :=
  resp <- client_delete url headers ;;
  print [Lit "Session closed (status "; StrOf (JInt (status_code resp)); Lit ")"].

(** Steps 1 to 4, everything that comes before the close. *)
Definition upstream (url : string) : M (list (string * string)) :=
  s <- step_initialize url ;;
  let headers := session_headers (fst s) in
  step_notify_initialized url headers ;;
  step_list_tools url headers ;;
  step_call_tool url headers ;;
  ret headers.

(** The block under [with]: lines 27 to 66. *)
Definition lifecycle (url : string) : M unit :=
  s <- step_initialize url ;;
  let headers := session_headers (fst s) in
  step_notify_initialized url headers ;;
  step_list_tools url headers ;;
  step_call_tool url headers ;;
  step_close url headers.

Definition main (argv : list string) : M unit :=
  let url := match argv with _ :: a :: _ => a | _ => BASE_URL end in
  with_client (lifecycle url).

(** ** The requests of a run *)

Definition url_of (argv : list string) : string :=
  match argv with _ :: a :: _ => a | _ => BASE_URL end.

Definition init_request (url : string) : request :=
  mkRequest POST url [] (Some (JObj (jsonrpc "initialize" None 1))).

Definition notify_request (url : string) (headers : list (string * string))
    : request :=
  mkRequest POST url headers (Some initialized_notification).

Definition list_request (url : string) (headers : list (string * string))
    : request :=
  mkRequest POST url headers (Some (JObj (jsonrpc "tools/list" None 2))).

Definition call_request (url : string) (headers : list (string * string))
    : request :=
  mkRequest POST url headers
    (Some (JObj (jsonrpc "tools/call" (Some ls_params) 3))).

Definition delete_request (url : string) (headers : list (string * string))
    : request :=
  mkRequest DELETE url headers None.

(** The four requests that follow a successful initialize, in order. *)
Definition session_requests (url sid : string) : list request :=
  let h := session_headers sid in
  [notify_request url h; list_request url h; call_request url h;
   delete_request url h].

(** The [id] member of a request body, when it has one. *)
Definition request_id (r : request) : option Z :=
  match req_json r with
  | Some (JObj d) =>
      match dict_lookup "id" d with
      | Some (JInt i) => Some i
      | _ => None
      end
  | _ => None
  end.

Definition request_method (r : request) : option string :=
  match req_json r with
  | Some (JObj d) =>
      match dict_lookup "method" d with
      | Some (JStr m) => Some m
      | _ => None
      end
  | _ => None
  end.

Fixpoint ids_of (rs : list request) : list Z :=
  match rs with
  | [] => []
  | r :: rs' =>
      match request_id r with
      | Some i => i :: ids_of rs'
      | None => ids_of rs'
      end
  end.

Definition is_delete (r : request) : bool :=
  match req_verb r with DELETE => true | POST => false end.

Definition delete_sent (l : log) : bool := existsb is_delete (requests_of l).

(** A computation that sends nothing, and one that sends exactly [r]. *)
Definition silent {A} (m : M A) : Prop :=
  forall tr l, requests_of (snd (m tr l)) = requests_of l.

Definition sends_one {A} (r : request) (m : M A) : Prop :=
  forall tr l, requests_of (snd (m tr l)) = requests_of l ++ [r].

(** ** The lifecycle states of the specification

    The script keeps no state variable: the state of the session is the
    place the run has reached.  Before the first request the session is
    [Uninitialized]; once step 1 is over it is [Active] when the step
    returned and [Failed] when it raised; after the DELETE it is
    [Closed]. *)

Inductive session_state : Type :=
| Uninitialized | Initializing | Active | Closed | Failed.

Definition state_after_initialize {A} (o : outcome A) : session_state :=
  match o with
  | Return _ => Active
  | Raise _ => Failed
  end.

(** ** Sample servers *)

(** A transport that answers the n-th request with the n-th reply of a
    script and fails once the script is used up. *)
Definition scripted (rs : list reply) : transport :=
  fun reqs => nth (List.length reqs - 1) rs Failure.

Definition demo_server_info : json :=
  JObj [("name", JStr "demo"); ("version", JStr "1.0")].

Definition ok_initialize : response :=
  mkResponse 200 [("Mcp-Session-Id", "abc123")]
    (Decoded (JObj [("result", JObj [("serverInfo", demo_server_info)])])).

Definition accepted : response := mkResponse 202 [] (Undecodable NotJson).

Definition ok_tools : response :=
  mkResponse 200 []
    (Decoded (JObj [("result", JObj [("tools",
       JArr [JObj [("name", JStr "ls"); ("description", JStr "List a directory")];
             JObj [("name", JStr "cat")]])])])).

Definition two_files : string := "file1" ++ newline ++ "file2".

Definition ok_call : response :=
  mkResponse 200 []
    (Decoded (JObj [("result", JObj [("isError", JBool false);
       ("content", JArr [JObj [("text", JStr two_files)]])])])).

Definition tool_error : response :=
  mkResponse 200 []
    (Decoded (JObj [("result", JObj [("isError", JBool true);
       ("content", JArr [JObj [("text", JStr "not found")]])])])).

Definition rpc_error : response :=
  mkResponse 200 []
    (Decoded (JObj [("jsonrpc", JStr "2.0"); ("id", JInt 3);
       ("error", JObj [("code", JInt (-32601));
                       ("message", JStr "Method not found")])])).

Definition server_error : response := mkResponse 500 [] (Undecodable NotJson).

Definition no_content : response := mkResponse 204 [] (Undecodable NotJson).

Definition happy_server : transport :=
  scripted [Answer ok_initialize; Answer accepted; Answer ok_tools;
            Answer ok_call; Answer no_content].

(** A server whose tools/list fails, one that drops the connection at the
    notification, and one that rejects the notification. *)
Definition list_fails_server : transport :=
  scripted [Answer ok_initialize; Answer accepted; Answer server_error].

Definition notify_drops_server : transport :=
  scripted [Answer ok_initialize; Failure; Answer ok_tools; Answer ok_call;
            Answer no_content].

Definition notify_rejected_server : transport :=
  scripted [Answer ok_initialize; Answer server_error; Answer ok_tools;
            Answer tool_error; Answer no_content].


(** A 2xx answer to tools/call whose result has no content. *)
Definition empty_result : response :=
  mkResponse 200 [] (Decoded (JObj [("result", JObj [])])).





(** A computation only ever adds to the log. *)
Definition extends {A} (m : M A) : Prop :=
  forall tr l, exists ext, snd (m tr l) = l ++ ext.

(** [result["content"][0]["text"]] *)
Definition first_text (result : json) : outcome json :=
  match getitem_str result "content" with
  | Return content =>
      match getitem_int content 0 with
      | Return item => getitem_str item "text"
      | Raise e => Raise e
      end
  | Raise e => Raise e
  end.

(** ** Further notions for the properties of the steps *)

(** The value of the f-string of line 46 for the tool [t]: the line the
    loop prints for it, or the exception its evaluation raises. *)
Definition tool_summary (t : json) : outcome line :=
  match getitem_str t "name" with
  | Return name =>
      match get t "description" (JStr "") with
      | Return description =>
          match slice_to 80 description with
          | Return preview => Return [Lit "  - "; fmt name; Lit ": "; fmt preview]
          | Raise e => Raise e
          end
      | Raise e => Raise e
      end
  | Raise e => Raise e
  end.


(** The line that reports the status of the DELETE. *)
Definition closed_line (status : Z) : line :=
  [Lit "Session closed (status "; StrOf (JInt status); Lit ")"].

(** The events of the body of the [with] block: requests and prints. *)
Definition is_io (ev : event) : bool :=
  match ev with
  | EvRequest _ | EvPrint _ => true
  | EvOpen | EvClose => false
  end.

(** A computation that adds only requests and prints to the log. *)
Definition appends_io {A} (m : M A) : Prop :=
  forall tr l, exists ext, snd (m tr l) = l ++ ext /\ forallb is_io ext = true.

(** A computation that never raises the exception of the transport. *)
Definition never_request_error {A} (m : M A) : Prop :=
  forall tr l, fst (m tr l) <> Raise RequestError.

(** A computation that sends [r] first and raises the exception of the
    transport exactly when the transport fails on [r]. *)
Definition reports_transport {A} (r : request) (m : M A) : Prop :=
  forall tr l,
    fst (m tr l) = Raise RequestError <-> tr (requests_of l ++ [r]) = Failure.

(** An initialize answer whose [serverInfo] has no version. *)
Definition unversioned_initialize : response :=
  mkResponse 200 [("Mcp-Session-Id", "abc123")]
    (Decoded (JObj [("result", JObj [("serverInfo", JObj [("name", JStr "demo")])])])).

(** The exceptions that come from the data of a response, as opposed to
    the transport and to the status check. *)
Definition is_data_error (e : exn) : bool :=
  match e with
  | RequestError | HTTPStatusError _ => false
  | _ => true
  end.

(** A computation that raises nothing but data errors. *)
Definition raises_only_data {A} (m : M A) : Prop :=
  forall tr l e, fst (m tr l) = Raise e -> is_data_error e = true.

(** A computation that sends [r] first and raises [HTTPStatusError]
    exactly when [r] is answered with a status that is not 2xx. *)
Definition checks_status {A} (r : request) (m : M A) : Prop :=
  forall tr l s,
    fst (m tr l) = Raise (HTTPStatusError s)
    <-> exists resp,
        tr (requests_of l ++ [r]) = Answer resp
        /\ is_success resp = false /\ status_code resp = s.

(** Thirty times the character U+65E5, three bytes each in UTF-8. *)
Definition cjk_sun : string :=
  String (ascii_of_nat 230) (String (ascii_of_nat 151)
    (String (ascii_of_nat 165) EmptyString)).

Fixpoint repeat_string (n : nat) (s : string) : string :=
  match n with
  | O => EmptyString
  | S n' => String.append s (repeat_string n' s)
  end.

Definition thirty_suns : string := repeat_string 30 cjk_sun.

(** A 2xx answer to tools/list whose bytes are not UTF-8. *)
Definition garbled : response := mkResponse 200 [] (Undecodable NotUnicode).




(** An initialize answer whose session header is written in capitals. *)
Definition shouting_initialize : response :=
  mkResponse 200 [("Content-Type", "application/json"); ("MCP-SESSION-ID", "abc123")]
    (Decoded (JObj [("result", JObj [("serverInfo", demo_server_info)])])).

(** ** The request builder *)

Lemma dict_lookup_setitem_same (k : string) (v : json) (d : dict) :
  dict_lookup k (dict_setitem k v d) = Some v.
Proof.
  induction d as [|[k' v'] d IH]; simpl.
  - now rewrite String.eqb_refl.
  - destruct (String.eqb k k') eqn:E; simpl; rewrite E; auto.
Qed.

Lemma dict_lookup_setitem_other (k k0 : string) (v : json) (d : dict) :
  k0 <> k -> dict_lookup k0 (dict_setitem k v d) = dict_lookup k0 d.
Proof.
  intros Hne.
  induction d as [|[k' v'] d IH]; simpl.
  - destruct (String.eqb_spec k0 k); [contradiction | reflexivity].
  - destruct (String.eqb_spec k k') as [->|Hk]; simpl.
    + destruct (String.eqb_spec k0 k'); [contradiction | reflexivity].
    + now rewrite IH.
Qed.

Lemma jsonrpc_unfold (method : string) (params : option dict) (req_id : Z) :
  jsonrpc method params req_id =
  [("jsonrpc", JStr "2.0"); ("id", JInt req_id); ("method", JStr method)]
  ++ match params with
     | Some (kv :: p) => [("params", JObj (kv :: p))]
     | _ => []
     end.
Proof. destruct params as [[|kv p]|]; reflexivity. Qed.

(** C9: the body built by [jsonrpc] has the members jsonrpc = "2.0",
    id = req_id (1 when the call leaves it out) and the given method, in
    that order, and nothing else but a [params] member, which is there
    exactly when the given params is a non-empty dict; an empty dict is left
    out like None. *)
Theorem jsonrpc_body (method : string) (params : option dict) (req_id : Z) :
  let body := jsonrpc method params req_id in
  let given := match params with Some (_ :: _) => true | _ => false end in
  body = [("jsonrpc", JStr "2.0"); ("id", JInt req_id); ("method", JStr method)]
         ++ (if given then [("params", JObj (match params with Some p => p | None => [] end))]
             else [])
  /\ dict_lookup "jsonrpc" body = Some (JStr "2.0")
  /\ dict_lookup "id" body = Some (JInt req_id)
  /\ dict_lookup "method" body = Some (JStr method)
  /\ (dict_lookup "params" body <> None <-> exists p, params = Some p /\ p <> [])
  /\ (forall p, params = Some p -> p <> [] ->
        dict_lookup "params" body = Some (JObj p))
  /\ jsonrpc method (Some []) req_id = jsonrpc method None req_id
  /\ jsonrpc_call method (Some params) None = jsonrpc method params 1
  /\ jsonrpc_call method None (Some req_id) = jsonrpc method None req_id.
Proof.
  cbv zeta. rewrite jsonrpc_unfold.
  destruct params as [[|kv p]|]; simpl.
  all: split; [reflexivity|].
  all: do 3 (split; [reflexivity|]).
  all: split; [split|].
  all: try (intros H; congruence).
  all: try (intros [p0 [H Hp]]; congruence).
  all: try (split; [intros p0 H Hp; congruence|]).
  all: try (repeat split; reflexivity).
  intros _. exists (kv :: p). split; [reflexivity | discriminate].
Qed.

(** ** The body of a response *)

Lemma resp_json_of_body (r : response) (j : json) :
  resp_body r = Some j -> resp_json r = Return j.
Proof.
  unfold resp_body, resp_json.
  destruct (resp_content r); [intros H; now inversion H | discriminate].
Qed.

Lemma resp_json_returns (r : response) (j : json) :
  resp_json r = Return j -> resp_body r = Some j.
Proof.
  unfold resp_body, resp_json.
  destruct (resp_content r); [intros H; now inversion H | discriminate].
Qed.

Lemma resp_json_of_fault (r : response) (f : body_fault) :
  resp_content r = Undecodable f -> resp_json r = Raise (fault_exn f).
Proof. unfold resp_json. now intros ->. Qed.

(** ** What a computation sends *)

Lemma requests_of_app (l1 l2 : log) :
  requests_of (l1 ++ l2) = requests_of l1 ++ requests_of l2.
Proof.
  induction l1 as [|ev l1 IH]; simpl; [reflexivity|].
  destruct ev; simpl; now rewrite IH.
Qed.

Lemma output_of_app (l1 l2 : log) :
  output_of (l1 ++ l2) = output_of l1 ++ output_of l2.
Proof.
  induction l1 as [|ev l1 IH]; simpl; [reflexivity|].
  destruct ev; simpl; now rewrite IH.
Qed.

Section Silent.

Context {A B : Type}.

Lemma silent_ret (a : A) : silent (ret a).
Proof. intros tr l. reflexivity. Qed.

Lemma silent_lift (o : outcome A) : silent (lift o).
Proof. intros tr l. reflexivity. Qed.

Lemma silent_bind (m : M A) (k : A -> M B) :
  silent m -> (forall a, silent (k a)) -> silent (bind m k).
Proof.
  intros Hm Hk tr l. unfold bind.
  specialize (Hm tr l).
  destruct (m tr l) as [[a|e] l1]; simpl in *.
  - now rewrite Hk.
  - assumption.
Qed.

Lemma sends_one_bind_silent (r : request) (m : M A) (k : A -> M B) :
  sends_one r m -> (forall a, silent (k a)) -> sends_one r (bind m k).
Proof.
  intros Hm Hk tr l. unfold bind.
  specialize (Hm tr l).
  destruct (m tr l) as [[a|e] l1]; simpl in *.
  - now rewrite Hk.
  - assumption.
Qed.

End Silent.

Lemma silent_print (p : line) : silent (print p).
Proof.
  intros tr l. unfold print. simpl.
  rewrite requests_of_app. simpl. now rewrite app_nil_r.
Qed.

Lemma sends_one_send (r : request) : sends_one r (send r).
Proof.
  intros tr l. unfold send.
  destruct (tr _); simpl; now rewrite requests_of_app.
Qed.

Ltac silent_steps :=
  repeat first
    [ apply silent_print | apply silent_ret | apply silent_lift
    | apply silent_bind; [| intros ?] ].

Lemma silent_print_tool (t : json) : silent (print_tool t).
Proof. unfold print_tool. silent_steps. Qed.

Lemma silent_for_each (body : json -> M unit) (items : list json) :
  (forall t, silent (body t)) -> silent (for_each body items).
Proof.
  intros Hbody. induction items as [|t items IH]; simpl.
  - apply silent_ret.
  - apply silent_bind; [apply Hbody | intros _; exact IH].
Qed.

Lemma silent_report_result (result : json) : silent (report_result result).
Proof.
  unfold report_result.
  apply silent_bind; [apply silent_lift | intros is_error].
  apply silent_bind; [| intros ?; apply silent_print].
  destruct (truthy is_error); silent_steps.
Qed.

Lemma sends_one_initialize (url : string) :
  sends_one (init_request url) (step_initialize url).
Proof.
  unfold step_initialize, client_post.
  apply sends_one_bind_silent; [apply sends_one_send | intros resp].
  silent_steps.
Qed.

Lemma sends_one_notify (url : string) (h : list (string * string)) :
  sends_one (notify_request url h) (step_notify_initialized url h).
Proof.
  unfold step_notify_initialized, client_post.
  apply sends_one_bind_silent; [apply sends_one_send | intros resp].
  apply silent_ret.
Qed.

Lemma sends_one_list_tools (url : string) (h : list (string * string)) :
  sends_one (list_request url h) (step_list_tools url h).
Proof.
  unfold step_list_tools, client_post.
  apply sends_one_bind_silent; [apply sends_one_send | intros resp].
  do 7 (apply silent_bind; [first [apply silent_lift | apply silent_print] | intros ?]).
  apply silent_bind; [| intros ?; apply silent_print].
  apply silent_for_each. exact silent_print_tool.
Qed.

Lemma sends_one_call_tool (url : string) (h : list (string * string)) :
  sends_one (call_request url h) (step_call_tool url h).
Proof.
  unfold step_call_tool, client_post.
  apply sends_one_bind_silent; [apply sends_one_send | intros resp].
  do 3 (apply silent_bind; [apply silent_lift | intros ?]).
  apply silent_report_result.
Qed.

Lemma sends_one_close (url : string) (h : list (string * string)) :
  sends_one (delete_request url h) (step_close url h).
Proof.
  unfold step_close, client_delete.
  apply sends_one_bind_silent; [apply sends_one_send | intros resp].
  apply silent_print.
Qed.

Lemma sends_one_run {A} (r : request) (m : M A) (tr : transport) (l l' : log)
    (o : outcome A) :
  sends_one r m -> m tr l = (o, l') -> requests_of l' = requests_of l ++ [r].
Proof. intros H E. specialize (H tr l). now rewrite E in H. Qed.

(** ** How far the lifecycle gets *)

(** Either step 1 raises, and that is the end, or it returns a session
    identifier and the run sends the first [n] of the four session requests:
    all four exactly when steps 2 to 4 return as well. *)
Lemma lifecycle_cases (url : string) (tr : transport) (l : log) :
  (exists e l1,
      step_initialize url tr l = (Raise e, l1)
      /\ lifecycle url tr l = (Raise e, l1)
      /\ upstream url tr l = (Raise e, l1)
      /\ requests_of l1 = requests_of l ++ [init_request url])
  \/
  (exists sid si l1 n,
      step_initialize url tr l = (Return (sid, si), l1)
      /\ (1 <= n <= 4)%nat
      /\ requests_of (snd (lifecycle url tr l))
         = requests_of l ++ init_request url :: firstn n (session_requests url sid)
      /\ (n = 4%nat -> fst (upstream url tr l) = Return (session_headers sid))
      /\ (n <> 4%nat ->
          exists e, fst (upstream url tr l) = Raise e
                    /\ fst (lifecycle url tr l) = Raise e)).
Proof.
  unfold lifecycle, upstream, bind.
  destruct (step_initialize url tr l) as [[[sid si]|e] l1] eqn:E1.
  2:{ left. exists e, l1. repeat split.
      eapply sends_one_run; [apply sends_one_initialize | exact E1]. }
  right. exists sid, si, l1.
  pose proof (sends_one_run _ _ _ _ _ _ (sends_one_initialize url) E1) as R1.
  simpl fst.
  destruct (step_notify_initialized url (session_headers sid) tr l1)
    as [[[]|e] l2] eqn:E2;
    pose proof (sends_one_run _ _ _ _ _ _ (sends_one_notify url _) E2) as R2.
  2:{ exists 1%nat. simpl. rewrite R2, R1, <- app_assoc.
      repeat split; try lia; try congruence. intros _. now exists e. }
  destruct (step_list_tools url (session_headers sid) tr l2)
    as [[[]|e] l3] eqn:E3;
    pose proof (sends_one_run _ _ _ _ _ _ (sends_one_list_tools url _) E3) as R3.
  2:{ exists 2%nat. simpl. rewrite R3, R2, R1, <- !app_assoc.
      repeat split; try lia; try congruence. intros _. now exists e. }
  destruct (step_call_tool url (session_headers sid) tr l3)
    as [[[]|e] l4] eqn:E4;
    pose proof (sends_one_run _ _ _ _ _ _ (sends_one_call_tool url _) E4) as R4.
  2:{ exists 3%nat. simpl. rewrite R4, R3, R2, R1, <- !app_assoc.
      repeat split; try lia; try congruence. intros _. now exists e. }
  exists 4%nat.
  pose proof (sends_one_close url (session_headers sid) tr l4) as R5.
  rewrite R5, R4, R3, R2, R1, <- !app_assoc. simpl.
  repeat split; try lia; try congruence.
Qed.

(** A successful step 1 read the session identifier off the response to the
    initialize request. *)
Lemma step_initialize_returns (url : string) (tr : transport) (l l1 : log)
    (sid : string) (si : json) :
  step_initialize url tr l = (Return (sid, si), l1) ->
  exists resp body result name version,
    tr (requests_of l ++ [init_request url]) = Answer resp
    /\ is_success resp = true
    /\ headers_getitem (resp_headers resp) "mcp-session-id" = Return sid
    /\ resp_body resp = Some body
    /\ getitem_str body "result" = Return result
    /\ getitem_str result "serverInfo" = Return si
    /\ getitem_str si "name" = Return name
    /\ getitem_str si "version" = Return version
    /\ l1 = l ++ [EvRequest (init_request url);
                  EvPrint [Lit "Connected to "; fmt name; Lit " v"; fmt version];
                  EvPrint [Lit "Session: "; Lit sid; Lit newline]].
Proof.
  unfold step_initialize, client_post, bind, send, lift, print, ret.
  rewrite requests_of_app. simpl requests_of.
  change (mkRequest POST url [] (Some (JObj (jsonrpc_call "initialize" None None))))
    with (init_request url).
  destruct (tr (requests_of l ++ [init_request url])) as [resp|] eqn:Etr;
    cbv beta iota; [|discriminate].
  unfold raise_for_status.
  destruct (is_success resp) eqn:Eok; [|discriminate].
  destruct (headers_getitem _ _) as [sid'|] eqn:Esid; [|discriminate].
  destruct (resp_json resp) as [body|] eqn:Ebody; [|discriminate].
  apply resp_json_returns in Ebody.
  destruct (getitem_str body "result") as [result|] eqn:Eres; [|discriminate].
  destruct (getitem_str result "serverInfo") as [si'|] eqn:Esi; [|discriminate].
  destruct (getitem_str si' "name") as [name|] eqn:Ename; [|discriminate].
  destruct (getitem_str si' "version") as [version|] eqn:Ever; [|discriminate].
  intros H. inversion H; subst.
  exists resp, body, result, name, version.
  repeat split; try assumption.
  now rewrite <- !app_assoc.
Qed.

Lemma main_unfold (argv : list string) (tr : transport) :
  main argv tr [] =
  (fst (lifecycle (url_of argv) tr [EvOpen]),
   snd (lifecycle (url_of argv) tr [EvOpen]) ++ [EvClose]).
Proof.
  unfold main, with_client. fold (url_of argv). simpl app.
  now destruct (lifecycle (url_of argv) tr [EvOpen]).
Qed.

Lemma main_requests (argv : list string) (tr : transport) :
  requests_of (snd (main argv tr []))
  = requests_of (snd (lifecycle (url_of argv) tr [EvOpen])).
Proof.
  rewrite main_unfold. simpl snd.
  rewrite requests_of_app. simpl. apply app_nil_r.
Qed.

(** The requests of a whole run: the initialize request, then the first
    [n] session requests, none of them when step 1 raised. *)
Lemma main_requests_cases (argv : list string) (tr : transport) :
  let url := url_of argv in
  (exists e,
      fst (step_initialize url tr [EvOpen]) = Raise e
      /\ fst (main argv tr []) = Raise e
      /\ requests_of (snd (main argv tr [])) = [init_request url])
  \/
  (exists sid si l1 n,
      step_initialize url tr [EvOpen] = (Return (sid, si), l1)
      /\ (1 <= n <= 4)%nat
      /\ requests_of (snd (main argv tr []))
         = init_request url :: firstn n (session_requests url sid)
      /\ (n = 4%nat -> fst (upstream url tr [EvOpen]) = Return (session_headers sid))
      /\ (n <> 4%nat ->
          exists e, fst (upstream url tr [EvOpen]) = Raise e
                    /\ fst (main argv tr []) = Raise e)).
Proof.
  intros url. rewrite main_requests. rewrite main_unfold. simpl fst. fold url.
  destruct (lifecycle_cases url tr [EvOpen])
    as [(e & l1 & E1 & EL & EU & R) | (sid & si & l1 & n & E1 & Hn & R & U4 & Un)].
  - left. exists e. rewrite E1, EL. simpl. repeat split. exact R.
  - right. exists sid, si, l1, n. repeat split; try assumption; lia.
Qed.

(** ** Request identifiers *)

(** C6: in every run the requests that carry an id are, in order, an initial
    part of initialize (1), tools/list (2) and tools/call (3): their ids
    increase strictly and none occurs twice. *)
Theorem request_ids_strictly_increasing (argv : list string) (tr : transport) :
  let ids := ids_of (requests_of (snd (main argv tr []))) in
  (exists k, (1 <= k)%nat /\ ids = firstn k [1; 2; 3])
  /\ StronglySorted Z.lt ids
  /\ NoDup ids.
Proof.
  assert (S3 : forall k, StronglySorted Z.lt (firstn k [1; 2; 3])).
  { intros k. do 4 (destruct k as [|k]; simpl;
      repeat (constructor; try lia)). }
  assert (N3 : forall k, NoDup (firstn k [1; 2; 3])).
  { intros k. do 4 (destruct k as [|k]; simpl;
      repeat first [apply NoDup_nil | apply NoDup_cons; simpl; [intuition lia|]]). }
  assert (K : exists k, (1 <= k)%nat /\
            ids_of (requests_of (snd (main argv tr []))) = firstn k [1; 2; 3]).
  { destruct (main_requests_cases argv tr)
      as [(e & _ & _ & R) | (sid & si & l1 & n & _ & Hn & R & _)];
      rewrite R.
    - exists 1%nat. split; [lia | reflexivity].
    - assert (n = 1 \/ n = 2 \/ n = 3 \/ n = 4)%nat as [-> | [-> | [-> | ->]]] by lia.
      + exists 1%nat. split; [lia | reflexivity].
      + exists 2%nat. split; [lia | reflexivity].
      + exists 3%nat. split; [lia | reflexivity].
      + exists 3%nat. split; [lia | reflexivity]. }
  cbv zeta. destruct K as (k & Hk & ->).
  split; [now exists k | split; [apply S3 | apply N3]].
Qed.

(** ** Running a step against a known reply *)

Lemma send_run (r : request) (tr : transport) (l : log) :
  send r tr l =
  (match tr (requests_of l ++ [r]) with
   | Answer resp => Return resp
   | Failure => Raise RequestError
   end, l ++ [EvRequest r]).
Proof.
  unfold send. rewrite requests_of_app. simpl.
  now destruct (tr (requests_of l ++ [r])).
Qed.

Lemma step_initialize_send (url : string) (tr : transport) (l : log) :
  step_initialize url tr l =
  bind (send (init_request url))
       (fun resp =>
          lift (raise_for_status resp) ;;
          session_id <- lift (headers_getitem (resp_headers resp) "mcp-session-id") ;;
          body <- lift (resp_json resp) ;;
          result <- lift (getitem_str body "result") ;;
          server_info <- lift (getitem_str result "serverInfo") ;;
          name <- lift (getitem_str server_info "name") ;;
          version <- lift (getitem_str server_info "version") ;;
          print [Lit "Connected to "; fmt name; Lit " v"; fmt version] ;;
          print [Lit "Session: "; Lit session_id; Lit newline] ;;
          ret (session_id, server_info)) tr l.
Proof. reflexivity. Qed.

Lemma step_call_tool_send (url : string) (h : list (string * string))
    (tr : transport) (l : log) :
  step_call_tool url h tr l =
  bind (send (call_request url h))
       (fun resp =>
          lift (raise_for_status resp) ;;
          body <- lift (resp_json resp) ;;
          result <- lift (getitem_str body "result") ;;
          report_result result) tr l.
Proof. reflexivity. Qed.

Lemma step_notify_send (url : string) (h : list (string * string))
    (tr : transport) (l : log) :
  step_notify_initialized url h tr l =
  bind (send (notify_request url h)) (fun _ => ret tt) tr l.
Proof. reflexivity. Qed.

(** When step 1 raises, nothing follows it. *)
Lemma main_initialize_raises (argv : list string) (tr : transport)
    (e : exn) (l1 : log) :
  step_initialize (url_of argv) tr [EvOpen] = (Raise e, l1) ->
  main argv tr [] = (Raise e, l1 ++ [EvClose]).
Proof.
  intros E. rewrite main_unfold. unfold lifecycle, bind. now rewrite E.
Qed.

(** ** Failure of initialize *)

(** C7: when the initialize request meets a transport error or a response
    whose status is not 2xx, step 1 raises, the session is Failed, and the
    run ends there: the initialize request is the only request of the run,
    sent once. *)
Theorem initialize_failure_aborts (argv : list string) (tr : transport) :
  let url := url_of argv in
  (tr [init_request url] = Failure
   \/ exists resp, tr [init_request url] = Answer resp /\ is_success resp = false) ->
  exists e,
    (e = RequestError \/ exists status, e = HTTPStatusError status)
    /\ step_initialize url tr [EvOpen] = (Raise e, [EvOpen; EvRequest (init_request url)])
    /\ state_after_initialize (fst (step_initialize url tr [EvOpen])) = Failed
    /\ main argv tr [] = (Raise e, [EvOpen; EvRequest (init_request url); EvClose])
    /\ requests_of (snd (main argv tr [])) = [init_request url].
Proof.
  intros url H.
  assert (E : exists e,
            (e = RequestError \/ exists status, e = HTTPStatusError status)
            /\ step_initialize url tr [EvOpen]
               = (Raise e, [EvOpen; EvRequest (init_request url)])).
  { rewrite step_initialize_send. unfold bind. rewrite send_run. simpl.
    destruct H as [H | (resp & H & Hs)]; rewrite H.
    - exists RequestError. split; [now left | reflexivity].
    - exists (HTTPStatusError (status_code resp)).
      split; [right; now exists (status_code resp)|].
      unfold lift, raise_for_status. now rewrite Hs. }
  destruct E as (e & He & E). exists e.
  pose proof (main_initialize_raises argv tr e _ E) as Em.
  rewrite E, Em. simpl. repeat split; assumption.
Qed.

Lemma initialize_failure_aborts_witness :
  (scripted [Answer server_error] [init_request BASE_URL] = Failure
   \/ exists resp, scripted [Answer server_error] [init_request BASE_URL] = Answer resp
                   /\ is_success resp = false)
  /\ exists e,
    (e = RequestError \/ exists status, e = HTTPStatusError status)
    /\ step_initialize BASE_URL (scripted [Answer server_error]) [EvOpen]
       = (Raise e, [EvOpen; EvRequest (init_request BASE_URL)])
    /\ state_after_initialize
         (fst (step_initialize BASE_URL (scripted [Answer server_error]) [EvOpen]))
       = Failed
    /\ main [] (scripted [Answer server_error]) []
       = (Raise e, [EvOpen; EvRequest (init_request BASE_URL); EvClose])
    /\ requests_of (snd (main [] (scripted [Answer server_error]) []))
       = [init_request BASE_URL].
Proof.
  assert (H : scripted [Answer server_error] [init_request BASE_URL] = Failure
              \/ exists resp,
                scripted [Answer server_error] [init_request BASE_URL] = Answer resp
                /\ is_success resp = false).
  { right. exists server_error. split; reflexivity. }
  split; [exact H|].
  exact (initialize_failure_aborts [] (scripted [Answer server_error]) H).
Defined.

(** ** Success of initialize *)








(** ** The session header *)

(** C5: once the initialize response gave the identifier [sid], every
    request the run sends after the initialize request -- the notification,
    tools/list, tools/call and the DELETE, as far as the run gets -- has
    exactly the header Mcp-Session-Id with the value [sid]. *)
Theorem session_header_propagated (argv : list string) (tr : transport)
    (resp : response) (sid : string) :
  let url := url_of argv in
  tr [init_request url] = Answer resp ->
  headers_getitem (resp_headers resp) "mcp-session-id" = Return sid ->
  exists n,
    (n <= 4)%nat
    /\ requests_of (snd (main argv tr []))
       = init_request url :: firstn n (session_requests url sid)
    /\ Forall (fun r => req_headers r = [("Mcp-Session-Id", sid)])
         (firstn n (session_requests url sid))
    /\ Forall (fun r => req_headers r = [("Mcp-Session-Id", sid)])
         (session_requests url sid)
    /\ map (fun r => (req_verb r, request_method r)) (session_requests url sid)
       = [(POST, Some "notifications/initialized"); (POST, Some "tools/list");
          (POST, Some "tools/call"); (DELETE, None)].
Proof.
  intros url Htr Hsid. subst url.
  assert (All : Forall (fun r => req_headers r = [("Mcp-Session-Id", sid)])
                  (session_requests (url_of argv) sid)).
  { repeat constructor. }
  assert (Some4 : forall n,
            Forall (fun r => req_headers r = [("Mcp-Session-Id", sid)])
              (firstn n (session_requests (url_of argv) sid))).
  { intros n. apply Forall_forall. intros r Hin.
    apply (proj1 (Forall_forall _ _) All r).
    clear - Hin. revert Hin. generalize (session_requests (url_of argv) sid).
    induction n as [|n IH]; intros [|x xs]; simpl; try tauto.
    intros [->|Hin]; [now left | right; now apply IH]. }
  destruct (main_requests_cases argv tr)
    as [(e & _ & _ & R) | (sid' & si & l1 & n & E1 & Hn & R & _)].
  - exists 0%nat. repeat split; try (simpl; auto); lia.
  - destruct (step_initialize_returns _ _ _ _ _ _ E1)
      as (resp' & body & result & name & version & Htr' & _ & Hsid' & _).
    simpl in Htr'. rewrite Htr in Htr'. inversion Htr'; subst resp'.
    rewrite Hsid in Hsid'. inversion Hsid'; subst sid'.
    exists n. repeat split; try (simpl; auto); lia.
Qed.

Lemma session_header_propagated_witness :
  happy_server [init_request BASE_URL] = Answer ok_initialize
  /\ headers_getitem (resp_headers ok_initialize) "mcp-session-id" = Return "abc123"
  /\ List.length (requests_of (snd (main [] happy_server []))) = 5%nat
  /\ exists n,
    (n <= 4)%nat
    /\ requests_of (snd (main [] happy_server []))
       = init_request BASE_URL :: firstn n (session_requests BASE_URL "abc123")
    /\ Forall (fun r => req_headers r = [("Mcp-Session-Id", "abc123")])
         (firstn n (session_requests BASE_URL "abc123"))
    /\ Forall (fun r => req_headers r = [("Mcp-Session-Id", "abc123")])
         (session_requests BASE_URL "abc123")
    /\ map (fun r => (req_verb r, request_method r))
         (session_requests BASE_URL "abc123")
       = [(POST, Some "notifications/initialized"); (POST, Some "tools/list");
          (POST, Some "tools/call"); (DELETE, None)].
Proof.
  split; [reflexivity|]. split; [reflexivity|]. split; [reflexivity|].
  exact (session_header_propagated [] happy_server ok_initialize "abc123"
           eq_refl eq_refl).
Defined.

(** ** The log only grows *)

Section Extends.

Context {A B : Type}.

Lemma extends_ret (a : A) : extends (ret a).
Proof. intros tr l. exists []. simpl. now rewrite app_nil_r. Qed.

Lemma extends_lift (o : outcome A) : extends (lift o).
Proof. intros tr l. exists []. simpl. now rewrite app_nil_r. Qed.

Lemma extends_bind (m : M A) (k : A -> M B) :
  extends m -> (forall a, extends (k a)) -> extends (bind m k).
Proof.
  intros Hm Hk tr l. unfold bind.
  destruct (Hm tr l) as [ext1 E1].
  destruct (m tr l) as [[a|e] l1]; simpl in *; subst l1.
  - destruct (Hk a tr (l ++ ext1)) as [ext2 E2].
    exists (ext1 ++ ext2). now rewrite E2, app_assoc.
  - now exists ext1.
Qed.

End Extends.

Lemma extends_print (p : line) : extends (print p).
Proof. intros tr l. now exists [EvPrint p]. Qed.

Lemma extends_send (r : request) : extends (send r).
Proof. intros tr l. rewrite send_run. now exists [EvRequest r]. Qed.

Ltac extends_steps :=
  repeat first
    [ apply extends_print | apply extends_ret | apply extends_lift
    | apply extends_send | apply extends_bind; [| intros ?] ].

Lemma extends_for_each (body : json -> M unit) (items : list json) :
  (forall t, extends (body t)) -> extends (for_each body items).
Proof.
  intros Hbody. induction items as [|t items IH]; simpl.
  - apply extends_ret.
  - apply extends_bind; [apply Hbody | intros ?; exact IH].
Qed.

Lemma extends_lifecycle (url : string) : extends (lifecycle url).
Proof.
  unfold lifecycle.
  apply extends_bind; [unfold step_initialize, client_post; extends_steps | intros s].
  apply extends_bind;
    [unfold step_notify_initialized, client_post; extends_steps | intros ?].
  apply extends_bind; [| intros ?].
  { unfold step_list_tools, client_post.
    do 8 (apply extends_bind;
          [first [apply extends_send | apply extends_lift | apply extends_print]
          | intros ?]).
    apply extends_bind; [| intros ?; apply extends_print].
    apply extends_for_each. intros t. unfold print_tool. extends_steps. }
  apply extends_bind; [| intros ?].
  { unfold step_call_tool, client_post.
    do 4 (apply extends_bind;
          [first [apply extends_send | apply extends_lift] | intros ?]).
    unfold report_result.
    apply extends_bind; [apply extends_lift | intros is_error].
    apply extends_bind; [| intros ?; apply extends_print].
    destruct (truthy is_error); extends_steps. }
  unfold step_close, client_delete. extends_steps.
Qed.

(** ** Closing the session *)

Lemma existsb_is_delete_firstn (url sid : string) (n : nat) :
  (n <= 4)%nat ->
  existsb is_delete (firstn n (session_requests url sid)) = (n =? 4)%nat.
Proof.
  intros Hn.
  assert (n = 0 \/ n = 1 \/ n = 2 \/ n = 3 \/ n = 4)%nat
    as [-> | [-> | [-> | [-> | ->]]]] by lia; reflexivity.
Qed.

(** C3, as the script has it: the DELETE is sent exactly when steps 1 to 4
    all returned; when one of them raises, the run ends with that exception
    and sends no DELETE.  The HTTP client itself is closed at the end of
    every run. *)
Theorem close_sent_iff_upstream_returns (argv : list string) (tr : transport) :
  let url := url_of argv in
  let run := main argv tr [] in
  delete_sent (snd run) = returns (fst (upstream url tr [EvOpen]))
  /\ (forall e, fst (upstream url tr [EvOpen]) = Raise e -> fst run = Raise e)
  /\ exists events, snd run = EvOpen :: events ++ [EvClose].
Proof.
  cbv zeta. split; [|split].
  - unfold delete_sent.
    destruct (main_requests_cases argv tr)
      as [(e & E1 & _ & R) | (sid & si & l1 & n & _ & Hn & R & U4 & Un)];
      rewrite R.
    + destruct (lifecycle_cases (url_of argv) tr [EvOpen])
        as [(e' & l1 & _ & _ & EU & _) | (sid & si & l1 & n & E1' & _)].
      * now rewrite EU.
      * rewrite E1' in E1. discriminate.
    + simpl. rewrite existsb_is_delete_firstn by lia.
      destruct (Nat.eqb_spec n 4) as [E|E].
      * now rewrite (U4 E).
      * destruct (Un E) as (e & EU & _). now rewrite EU.
  - intros e EU.
    destruct (main_requests_cases argv tr)
      as [(e' & E1 & Em & _) | (sid & si & l1 & n & _ & Hn & _ & U4 & Un)].
    + destruct (lifecycle_cases (url_of argv) tr [EvOpen])
        as [(e'' & l1 & E1' & _ & EU' & _) | (sid & si & l1 & n & E1' & _)].
      * rewrite EU' in EU. rewrite E1' in E1. simpl in *. congruence.
      * rewrite E1' in E1. discriminate.
    + destruct (Nat.eq_dec n 4) as [E|E].
      * rewrite (U4 E) in EU. discriminate.
      * destruct (Un E) as (e' & EU' & Em). congruence.
  - rewrite main_unfold. simpl snd.
    destruct (extends_lifecycle (url_of argv) tr [EvOpen]) as [ext E].
    exists ext. now rewrite E.
Qed.

(** C3 as claimed fails: initialize succeeds, tools/list gets HTTP 500, and
    the run ends without a DELETE. *)
Lemma close_skipped_after_list_tools_failure :
  fst (step_initialize BASE_URL list_fails_server [EvOpen])
  = Return ("abc123", demo_server_info)
  /\ fst (main [] list_fails_server []) = Raise (HTTPStatusError 500)
  /\ requests_of (snd (main [] list_fails_server []))
     = [init_request BASE_URL;
        notify_request BASE_URL (session_headers "abc123");
        list_request BASE_URL (session_headers "abc123")]
  /\ delete_sent (snd (main [] list_fails_server [])) = false.
Proof. repeat split. Qed.

(** ** Order of the operations *)

(** X14: the order of the operations is the order of the statements of
    [main].  The first request of every run is initialize; any further
    request, the tools/call among them, is sent only when step 1 returned;
    when step 1 raises, the run ends with that very exception and sends
    nothing else; and nothing is sent after the DELETE. *)
Theorem requests_only_after_initialize (argv : list string) (tr : transport) :
  let url := url_of argv in
  let reqs := requests_of (snd (main argv tr [])) in
  exists rest,
    reqs = init_request url :: rest
    /\ (rest <> [] -> returns (fst (step_initialize url tr [EvOpen])) = true)
    /\ (forall e, fst (step_initialize url tr [EvOpen]) = Raise e ->
          fst (main argv tr []) = Raise e /\ rest = [])
    /\ (forall i r, nth_error reqs i = Some r -> is_delete r = true ->
          S i = List.length reqs).
Proof.
  cbv zeta.
  destruct (main_requests_cases argv tr)
    as [(e & E1 & Em & R) | (sid & si & l1 & n & E1 & Hn & R & _)]; rewrite R.
  - exists []. repeat split.
    + congruence.
    + rewrite E1 in H. congruence.
    + intros i r H D. destruct i as [|i]; simpl in H.
      * inversion H; subst r. discriminate.
      * destruct i; discriminate.
  - exists (firstn n (session_requests (url_of argv) sid)). repeat split.
    + now rewrite E1.
    + rewrite E1 in H. discriminate.
    + rewrite E1 in H. discriminate.
    + assert (n = 1 \/ n = 2 \/ n = 3 \/ n = 4)%nat
        as [-> | [-> | [-> | ->]]] by lia;
        intros i r H D;
        do 5 (destruct i as [|i]; simpl in H;
              [inversion H; subst r; first [discriminate D | reflexivity]|]);
        try discriminate H; destruct i; discriminate H.
Qed.

(** ** The initialized notification *)

Lemma lifecycle_after_notify (url : string) (tr : transport) (l l1 l2 : log)
    (sid : string) (si : json) :
  step_initialize url tr l = (Return (sid, si), l1) ->
  step_notify_initialized url (session_headers sid) tr l1 = (Return tt, l2) ->
  exists rest,
    requests_of (snd (lifecycle url tr l))
    = requests_of l ++ init_request url
        :: notify_request url (session_headers sid)
        :: list_request url (session_headers sid) :: rest.
Proof.
  intros E1 E2.
  pose proof (sends_one_run _ _ _ _ _ _ (sends_one_initialize url) E1) as R1.
  pose proof (sends_one_run _ _ _ _ _ _ (sends_one_notify url _) E2) as R2.
  unfold lifecycle, bind. rewrite E1. simpl fst. rewrite E2.
  destruct (step_list_tools url (session_headers sid) tr l2)
    as [[[]|e] l3] eqn:E3;
    pose proof (sends_one_run _ _ _ _ _ _ (sends_one_list_tools url _) E3) as R3.
  2:{ exists []. simpl. rewrite R3, R2, R1, <- !app_assoc. reflexivity. }
  destruct (step_call_tool url (session_headers sid) tr l3)
    as [[[]|e] l4] eqn:E4;
    pose proof (sends_one_run _ _ _ _ _ _ (sends_one_call_tool url _) E4) as R4.
  2:{ eexists. simpl. rewrite R4, R3, R2, R1, <- !app_assoc. reflexivity. }
  pose proof (sends_one_close url (session_headers sid) tr l4) as R5.
  eexists. rewrite R5, R4, R3, R2, R1, <- !app_assoc. reflexivity.
Qed.

(** C8, as the script has it: step 2 posts a body without an id whose method
    is notifications/initialized, under the session header; it returns
    nothing and never looks at the response, so whatever the server answers,
    a non-2xx status included, the run goes on to tools/list under the same
    header.  A transport error of the POST itself is not caught: it ends the
    run. *)
Theorem notify_initialized_fire_and_forget (argv : list string) (tr : transport)
    (sid : string) (si : json) (l1 : log) :
  let url := url_of argv in
  let h := session_headers sid in
  let r := notify_request url h in
  step_initialize url tr [EvOpen] = (Return (sid, si), l1) ->
  req_verb r = POST
  /\ req_headers r = [("Mcp-Session-Id", sid)]
  /\ req_json r = Some initialized_notification
  /\ request_id r = None
  /\ request_method r = Some "notifications/initialized"
  /\ step_notify_initialized url h tr l1
     = (match tr [init_request url; r] with
        | Answer _ => Return tt
        | Failure => Raise RequestError
        end, l1 ++ [EvRequest r])
  /\ (forall resp, tr [init_request url; r] = Answer resp ->
        exists rest,
          requests_of (snd (main argv tr []))
          = init_request url :: r :: list_request url h :: rest)
  /\ (tr [init_request url; r] = Failure ->
        fst (main argv tr []) = Raise RequestError
        /\ requests_of (snd (main argv tr [])) = [init_request url; r]).
Proof.
  intros url h r E1.
  pose proof (sends_one_run _ _ _ _ _ _ (sends_one_initialize url) E1) as R1.
  simpl in R1.
  assert (E2 : step_notify_initialized url h tr l1
               = (match tr [init_request url; r] with
                  | Answer _ => Return tt
                  | Failure => Raise RequestError
                  end, l1 ++ [EvRequest r])).
  { rewrite step_notify_send. unfold bind. rewrite send_run, R1. simpl.
    fold r. now destruct (tr [init_request url; r]). }
  do 5 (split; [reflexivity|]). split; [exact E2|]. split.
  - intros resp Htr. rewrite Htr in E2.
    rewrite main_requests.
    apply (lifecycle_after_notify _ _ _ _ _ _ _ E1 E2).
  - intros Htr. rewrite Htr in E2.
    rewrite main_requests, main_unfold. simpl fst.
    unfold lifecycle, bind. fold url. rewrite E1. simpl fst. fold h.
    rewrite E2. simpl.
    rewrite requests_of_app, R1. split; reflexivity.
Qed.

Lemma notify_initialized_fire_and_forget_witness :
  step_initialize BASE_URL notify_rejected_server [EvOpen]
  = (Return ("abc123", demo_server_info),
     [EvOpen; EvRequest (init_request BASE_URL);
      EvPrint [Lit "Connected to "; Lit "demo"; Lit " v"; Lit "1.0"];
      EvPrint [Lit "Session: "; Lit "abc123"; Lit newline]])
  /\ notify_rejected_server
       [init_request BASE_URL; notify_request BASE_URL (session_headers "abc123")]
     = Answer server_error
  /\ fst (main [] notify_rejected_server []) = Return tt
  /\ exists rest,
      requests_of (snd (main [] notify_rejected_server []))
      = init_request BASE_URL
          :: notify_request BASE_URL (session_headers "abc123")
          :: list_request BASE_URL (session_headers "abc123") :: rest.
Proof.
  split; [reflexivity|]. split; [reflexivity|]. split; [reflexivity|].
  destruct (notify_initialized_fire_and_forget [] notify_rejected_server
              "abc123" demo_server_info _ eq_refl)
    as (_ & _ & _ & _ & _ & _ & Go & _).
  exact (Go server_error eq_refl).
Defined.

(** C8 as claimed fails: the connection drops at the notification, and the
    run ends there with the transport's exception, before tools/list. *)
Lemma notify_transport_failure_is_fatal :
  notify_drops_server
    [init_request BASE_URL; notify_request BASE_URL (session_headers "abc123")]
  = Failure
  /\ fst (main [] notify_drops_server []) = Raise RequestError
  /\ requests_of (snd (main [] notify_drops_server []))
     = [init_request BASE_URL;
        notify_request BASE_URL (session_headers "abc123")].
Proof. repeat split. Qed.

(** ** The result of the tool call *)

Lemma report_result_run (result is_error : json) (tr : transport) (l : log) :
  get result "isError" JNull = Return is_error ->
  report_result result tr l =
  if truthy is_error then
    match first_text result with
    | Return text =>
        (Return tt, l ++ [EvPrint [Lit "Tool error: "; fmt text]; EvPrint []])
    | Raise e => (Raise e, l)
    end
  else
    match first_text result with
    | Return text =>
        (Return tt,
         l ++ [EvPrint [Lit "ls result:"]; EvPrint [fmt text]; EvPrint []])
    | Raise e => (Raise e, l ++ [EvPrint [Lit "ls result:"]])
    end.
Proof.
  intros Hget. unfold report_result, first_text, bind, lift, print.
  rewrite Hget.
  destruct (truthy is_error);
    destruct (getitem_str result "content") as [content|e]; try reflexivity;
    destruct (getitem_int content 0) as [item|e]; try reflexivity;
    destruct (getitem_str item "text") as [text|e]; try reflexivity;
    now rewrite <- !app_assoc.
Qed.

Lemma step_call_tool_run (url : string) (h : list (string * string))
    (tr : transport) (l : log) (resp : response) (body : json) :
  tr (requests_of l ++ [call_request url h]) = Answer resp ->
  is_success resp = true ->
  resp_body resp = Some body ->
  step_call_tool url h tr l =
  match getitem_str body "result" with
  | Return result => report_result result tr (l ++ [EvRequest (call_request url h)])
  | Raise e => (Raise e, l ++ [EvRequest (call_request url h)])
  end.
Proof.
  intros Htr Hok Hbody.
  rewrite step_call_tool_send. unfold bind at 1. rewrite send_run, Htr.
  unfold bind, lift, raise_for_status.
  rewrite Hok, (resp_json_of_body _ _ Hbody).
  now destruct (getitem_str body "result").
Qed.




(** ** Unchecked indexing of the result *)

(** C10: both branches read [result["content"][0]["text"]] without a check.
    For a 2xx answer to tools/call whose result has no [content], an empty
    [content], or a first item without [text], the step raises a
    [KeyError] or an [IndexError], whatever [isError] is, and returns no
    outcome. *)
Theorem call_tool_unchecked_indexing (url : string) (h : list (string * string))
    (tr : transport) (l : log) (resp : response) (body : json) (result : dict) :
  tr (requests_of l ++ [call_request url h]) = Answer resp ->
  is_success resp = true ->
  resp_body resp = Some body ->
  getitem_str body "result" = Return (JObj result) ->
  (dict_lookup "content" result = None
   \/ dict_lookup "content" result = Some (JArr [])
   \/ exists item rest,
       dict_lookup "content" result = Some (JArr (JObj item :: rest))
       /\ dict_lookup "text" item = None) ->
  exists e l',
    step_call_tool url h tr l = (Raise e, l')
    /\ is_lookup_error e = true
    /\ (e = KeyError (JStr "content") \/ e = IndexError \/ e = KeyError (JStr "text"))
    /\ requests_of l' = requests_of l ++ [call_request url h]
    /\ (output_of l' = output_of l
        \/ output_of l' = output_of l ++ [[Lit "ls result:"]]).
Proof.
  intros Htr Hok Hbody Hres Hbad.
  rewrite (step_call_tool_run _ _ _ _ _ _ Htr Hok Hbody), Hres.
  assert (Htext : exists e,
            first_text (JObj result) = Raise e
            /\ is_lookup_error e = true
            /\ (e = KeyError (JStr "content") \/ e = IndexError
                \/ e = KeyError (JStr "text"))).
  { unfold first_text. simpl.
    destruct Hbad as [Hc | [Hc | (item & rest & Hc & Ht)]]; rewrite Hc; simpl.
    - exists (KeyError (JStr "content")). auto.
    - exists IndexError. auto.
    - rewrite Ht. exists (KeyError (JStr "text")). auto. }
  destruct Htext as (e & Htext & Hlook & Hkind).
  assert (Hget : exists is_error, get (JObj result) "isError" JNull = Return is_error).
  { simpl. destruct (dict_lookup "isError" result); eauto. }
  destruct Hget as [is_error Hget].
  rewrite (report_result_run _ _ _ _ Hget), Htext.
  destruct (truthy is_error); eexists e, _; (split; [reflexivity|]);
    repeat split; try assumption;
    rewrite ?requests_of_app, ?output_of_app; simpl;
    rewrite ?app_nil_r; auto.
Qed.

Lemma call_tool_unchecked_indexing_witness :
  (fun _ => Answer empty_result) (requests_of [] ++ [call_request BASE_URL []])
  = Answer empty_result
  /\ is_success empty_result = true
  /\ fst (step_call_tool BASE_URL [] (fun _ => Answer empty_result) [])
     = Raise (KeyError (JStr "content"))
  /\ exists e l',
    step_call_tool BASE_URL [] (fun _ => Answer empty_result) [] = (Raise e, l')
    /\ is_lookup_error e = true
    /\ (e = KeyError (JStr "content") \/ e = IndexError \/ e = KeyError (JStr "text"))
    /\ requests_of l' = requests_of [] ++ [call_request BASE_URL []]
    /\ (output_of l' = output_of []
        \/ output_of l' = output_of [] ++ [[Lit "ls result:"]]).
Proof.
  split; [reflexivity|]. split; [reflexivity|]. split; [reflexivity|].
  exact (call_tool_unchecked_indexing BASE_URL [] (fun _ => Answer empty_result) []
           empty_result (JObj [("result", JObj [])]) []
           eq_refl eq_refl eq_refl eq_refl (or_introl eq_refl)).
Defined.

(** * Further properties of the script *)

(** ** The URL of a run *)

Lemma In_firstn {A} (n : nat) (l : list A) (x : A) :
  In x (firstn n l) -> In x l.
Proof.
  revert l. induction n as [|n IH]; intros [|y l]; simpl; try tauto.
  intros [->|H]; [now left | right; now apply IH].
Qed.

(** X1: every request of a run, the DELETE included, goes to one URL: the
    first command-line argument when there is one, the default
    [BASE_URL] otherwise; further arguments are ignored. *)
Theorem every_request_goes_to_one_url (argv : list string) (tr : transport) :
  Forall (fun r => req_url r = url_of argv) (requests_of (snd (main argv tr [])))
  /\ ((List.length argv <= 1)%nat -> url_of argv = BASE_URL)
  /\ (forall prog a rest, argv = prog :: a :: rest -> url_of argv = a).
Proof.
  split; [|split].
  - apply Forall_forall. intros r Hin.
    destruct (main_requests_cases argv tr)
      as [(e & _ & _ & R) | (sid & si & l1 & n & _ & _ & R & _)];
      rewrite R in Hin.
    + destruct Hin as [<-|[]]. reflexivity.
    + destruct Hin as [<-|Hin]; [reflexivity|].
      apply In_firstn in Hin. simpl in Hin.
      destruct Hin as [<-|[<-|[<-|[<-|[]]]]]; reflexivity.
  - destruct argv as [|prog [|a rest]]; simpl; try reflexivity; lia.
  - intros prog a rest ->. reflexivity.
Qed.

(** ** No request is sent twice *)

Lemma NoDup_cons_firstn {A} (n : nat) (x : A) (l : list A) :
  NoDup (x :: l) -> NoDup (x :: firstn n l).
Proof.
  revert x l. induction n as [|n IH]; intros x l H.
  - simpl. constructor; [intros [] | constructor].
  - destruct l as [|y l]; simpl; [exact H|].
    inversion H as [|? ? Hx Hl]; subst.
    constructor.
    + intros [<-|Hin]; apply Hx; [now left|].
      right. now apply In_firstn in Hin.
    + apply IH. exact Hl.
Qed.

Lemma planned_requests_distinct (url sid : string) :
  NoDup (init_request url :: session_requests url sid).
Proof.
  unfold session_requests.
  repeat (constructor;
          [simpl; intros H;
           repeat (destruct H as [H|H]; [discriminate H|]); exact H|]).
  constructor.
Qed.

(** X2: a run sends at least one and at most five requests and never sends
    the same request twice: no step is retried. *)
Theorem run_never_repeats_a_request (argv : list string) (tr : transport) :
  let reqs := requests_of (snd (main argv tr [])) in
  (1 <= List.length reqs <= 5)%nat /\ NoDup reqs.
Proof.
  cbv zeta.
  destruct (main_requests_cases argv tr)
    as [(e & _ & _ & R) | (sid & si & l1 & n & _ & Hn & R & _)]; rewrite R.
  - split; [simpl; lia|]. constructor; [intros [] | constructor].
  - split.
    + simpl. rewrite length_firstn. simpl. lia.
    + apply NoDup_cons_firstn, planned_requests_distinct.
Qed.

(** ** The listing of the tools *)




Lemma step_list_tools_send (url : string) (h : list (string * string))
    (tr : transport) (l : log) :
  step_list_tools url h tr l =
  bind (send (list_request url h))
       (fun resp =>
          lift (raise_for_status resp) ;;
          body <- lift (resp_json resp) ;;
          result <- lift (getitem_str body "result") ;;
          tools <- lift (getitem_str result "tools") ;;
          n <- lift (len tools) ;;
          print [Lit "Available tools ("; StrOf (JInt n); Lit "):"] ;;
          items <- lift (iter tools) ;;
          for_each print_tool items ;;
          print []) tr l.
Proof. reflexivity. Qed.






(** ** The preview of a description *)

Lemma take_chars_length (n : nat) (s : string) :
  char_length (take_chars n s) = Nat.min n (char_length s).
Proof.
  revert n. induction s as [|c s IH]; intros n; simpl.
  - now rewrite Nat.min_0_r.
  - destruct (is_continuation c) eqn:Hc; simpl.
    + rewrite Hc. apply IH.
    + destruct n as [|n]; simpl; [reflexivity|].
      rewrite Hc. now rewrite IH.
Qed.

Lemma take_chars_split (n : nat) (s : string) :
  exists rest,
    s = String.append (take_chars n s) rest /\ starts_character rest = true.
Proof.
  revert n. induction s as [|c s IH]; intros n; simpl.
  - now exists EmptyString.
  - destruct (is_continuation c) eqn:Hc.
    + destruct (IH n) as (rest & E & B). exists rest.
      simpl. now rewrite <- E.
    + destruct n as [|n].
      * exists (String c s). simpl. now rewrite Hc.
      * destruct (IH n) as (rest & E & B). exists rest.
        simpl. now rewrite <- E.
Qed.

Lemma take_chars_all (n : nat) (s : string) :
  (char_length s <= n)%nat -> take_chars n s = s.
Proof.
  revert n. induction s as [|c s IH]; intros n; simpl; [reflexivity|].
  destruct (is_continuation c).
  - intros H. now rewrite IH.
  - destruct n as [|n]; intros H; [lia|].
    rewrite IH; [reflexivity | lia].
Qed.

(** X5: for a tool with a name, the printed line ends with a preview of the
    description: its first 80 characters (characters, not bytes: the cut
    never falls inside one) when the description is a string, the whole of
    it when it has at most 80, and the empty string when the tool has no
    description.  A description that is [null] is not treated as absent:
    the line raises [TypeError]. *)
Theorem tool_line_preview (fields : dict) (name : json) :
  dict_lookup "name" fields = Some name ->
  (forall d, dict_lookup "description" fields = Some (JStr d) ->
     exists p rest,
       tool_summary (JObj fields) = Return [Lit "  - "; fmt name; Lit ": "; Lit p]
       /\ d = String.append p rest
       /\ starts_character rest = true
       /\ char_length p = Nat.min 80 (char_length d)
       /\ ((char_length d <= 80)%nat -> p = d))
  /\ (dict_lookup "description" fields = None ->
      tool_summary (JObj fields) = Return [Lit "  - "; fmt name; Lit ": "; Lit ""])
  /\ (dict_lookup "description" fields = Some JNull ->
      tool_summary (JObj fields) = Raise TypeError).
Proof.
  intros Hname. unfold tool_summary. simpl getitem_str. rewrite Hname.
  simpl get. split; [|split].
  - intros d Hd. rewrite Hd.
    destruct (take_chars_split 80 d) as (rest & E & B).
    exists (take_chars 80 d), rest.
    split; [reflexivity|]. split; [exact E|]. split; [exact B|].
    split; [apply take_chars_length | apply take_chars_all].
  - intros Hd. now rewrite Hd.
  - intros Hd. now rewrite Hd.
Qed.

Lemma tool_line_preview_witness :
  dict_lookup "name" [("name", JStr "ls"); ("description", JStr thirty_suns)]
  = Some (JStr "ls")
  /\ String.length thirty_suns = 90%nat
  /\ char_length thirty_suns = 30%nat
  /\ tool_summary (JObj [("name", JStr "ls"); ("description", JStr thirty_suns)])
     = Return [Lit "  - "; Lit "ls"; Lit ": "; Lit thirty_suns].
Proof.
  split; [reflexivity|]. split; [reflexivity|]. split; [reflexivity|].
  destruct (tool_line_preview
              [("name", JStr "ls"); ("description", JStr thirty_suns)]
              (JStr "ls") eq_refl) as [Hstr _].
  destruct (Hstr thirty_suns eq_refl) as (p & rest & Hp & _ & _ & _ & Hshort).
  rewrite Hp. rewrite Hshort; [reflexivity | vm_compute; lia].
Defined.

(** ** What tools/list rejects *)

(** X6: an answer to tools/list that is not 2xx, whose body [resp.json()]
    cannot decode, that has no [result] (as a JSON-RPC error envelope), has
    no [result.tools], or whose [tools] has no length, makes the step raise
    before anything is printed: the log gains the request and nothing else.
    The exception of an undecodable body is the one of its fault:
    [UnicodeDecodeError] for bytes that are not UTF-8, [JSONDecodeError]
    for text that is not JSON. *)
Theorem list_tools_rejects_before_printing (url : string)
    (h : list (string * string)) (tr : transport) (l : log) (resp : response) :
  tr (requests_of l ++ [list_request url h]) = Answer resp ->
  let l0 := l ++ [EvRequest (list_request url h)] in
  (is_success resp = false ->
     step_list_tools url h tr l = (Raise (HTTPStatusError (status_code resp)), l0))
  /\ (is_success resp = true -> resp_content resp = Undecodable NotUnicode ->
      step_list_tools url h tr l = (Raise UnicodeDecodeError, l0))
  /\ (is_success resp = true -> resp_content resp = Undecodable NotJson ->
      step_list_tools url h tr l = (Raise JSONDecodeError, l0))
  /\ (forall f, is_success resp = true -> resp_content resp = Undecodable f ->
      step_list_tools url h tr l = (Raise (fault_exn f), l0))
  /\ (forall fields, is_success resp = true -> resp_body resp = Some (JObj fields) ->
      dict_lookup "result" fields = None ->
      step_list_tools url h tr l = (Raise (KeyError (JStr "result")), l0))
  /\ (forall fields result, is_success resp = true ->
      resp_body resp = Some (JObj fields) ->
      dict_lookup "result" fields = Some (JObj result) ->
      dict_lookup "tools" result = None ->
      step_list_tools url h tr l = (Raise (KeyError (JStr "tools")), l0))
  /\ (forall fields result, is_success resp = true ->
      resp_body resp = Some (JObj fields) ->
      dict_lookup "result" fields = Some (JObj result) ->
      dict_lookup "tools" result = Some JNull ->
      step_list_tools url h tr l = (Raise TypeError, l0)).
Proof.
  intros Htr l0.
  assert (Hrun : forall k : response -> M unit,
            bind (send (list_request url h)) k tr l = k resp tr l0).
  { intros k. unfold bind. now rewrite send_run, Htr. }
  rewrite step_list_tools_send, Hrun.
  unfold bind, lift, raise_for_status.
  assert (Hfault : forall f, is_success resp = true ->
            resp_content resp = Undecodable f ->
            (if is_success resp then Return tt
             else Raise (HTTPStatusError (status_code resp))) = Return tt
            /\ resp_json resp = Raise (fault_exn f)).
  { intros f Hok Hc. rewrite Hok. split; [reflexivity|].
    now apply resp_json_of_fault. }
  repeat split.
  - intros Hok. now rewrite Hok.
  - intros Hok Hc. destruct (Hfault _ Hok Hc) as [-> ->]. reflexivity.
  - intros Hok Hc. destruct (Hfault _ Hok Hc) as [-> ->]. reflexivity.
  - intros f Hok Hc. destruct (Hfault _ Hok Hc) as [-> ->]. reflexivity.
  - intros fields Hok Hbody Hres.
    rewrite Hok, (resp_json_of_body _ _ Hbody). simpl. now rewrite Hres.
  - intros fields result Hok Hbody Hres Htools.
    rewrite Hok, (resp_json_of_body _ _ Hbody). simpl. rewrite Hres. simpl.
    now rewrite Htools.
  - intros fields result Hok Hbody Hres Htools.
    rewrite Hok, (resp_json_of_body _ _ Hbody). simpl. rewrite Hres. simpl.
    now rewrite Htools.
Qed.

Lemma list_tools_rejects_before_printing_witness :
  (fun _ => Answer garbled) (requests_of [] ++ [list_request BASE_URL []])
  = Answer garbled
  /\ is_success garbled = true
  /\ step_list_tools BASE_URL [] (fun _ => Answer garbled) []
     = (Raise UnicodeDecodeError, [EvRequest (list_request BASE_URL [])])
  /\ step_list_tools BASE_URL [] (fun _ => Answer rpc_error) []
     = (Raise (KeyError (JStr "result")), [EvRequest (list_request BASE_URL [])]).
Proof.
  split; [reflexivity|]. split; [reflexivity|].
  destruct (list_tools_rejects_before_printing BASE_URL []
              (fun _ => Answer garbled) [] garbled eq_refl)
    as (_ & Hgarbled & _).
  split; [exact (Hgarbled eq_refl eq_refl) | reflexivity].
Defined.

(** ** The truth value of isError *)




(** ** The end of a run *)

Lemma lifecycle_upstream (url : string) (tr : transport) (l : log) :
  lifecycle url tr l =
  match upstream url tr l with
  | (Return h, l4) => step_close url h tr l4
  | (Raise e, l') => (Raise e, l')
  end.
Proof.
  unfold lifecycle, upstream, bind, ret.
  destruct (step_initialize url tr l) as [[s|e] l1]; [|reflexivity].
  destruct (step_notify_initialized _ _ tr l1) as [[[]|e] l2]; [|reflexivity].
  destruct (step_list_tools _ _ tr l2) as [[[]|e] l3]; [|reflexivity].
  now destruct (step_call_tool _ _ tr l3) as [[[]|e] l4].
Qed.

Lemma step_close_run (url : string) (h : list (string * string))
    (tr : transport) (l : log) :
  step_close url h tr l =
  match tr (requests_of l ++ [delete_request url h]) with
  | Answer resp =>
      (Return tt,
       l ++ [EvRequest (delete_request url h); EvPrint (closed_line (status_code resp))])
  | Failure => (Raise RequestError, l ++ [EvRequest (delete_request url h)])
  end.
Proof.
  unfold step_close, client_delete, bind. fold (delete_request url h).
  rewrite send_run.
  destruct (tr (requests_of l ++ [delete_request url h])); [|reflexivity].
  unfold print, closed_line. now rewrite <- app_assoc.
Qed.

(** X8: the status of the DELETE is never checked.  When steps 1 to 4
    returned, any answer to the DELETE, whatever its status, makes the run
    print that status and return; only a transport error of the DELETE makes
    it raise.  And a run returns only in that way: after all of steps 1 to 4
    returned and the DELETE was answered. *)
Theorem run_returns_iff_delete_answered (argv : list string) (tr : transport) :
  let url := url_of argv in
  (forall h l4,
      upstream url tr [EvOpen] = (Return h, l4) ->
      main argv tr [] =
      match tr (requests_of l4 ++ [delete_request url h]) with
      | Answer resp =>
          (Return tt,
           l4 ++ [EvRequest (delete_request url h);
                  EvPrint (closed_line (status_code resp)); EvClose])
      | Failure =>
          (Raise RequestError, l4 ++ [EvRequest (delete_request url h); EvClose])
      end)
  /\ (fst (main argv tr []) = Return tt <->
      exists h l4 resp,
        upstream url tr [EvOpen] = (Return h, l4)
        /\ tr (requests_of l4 ++ [delete_request url h]) = Answer resp).
Proof.
  cbv zeta.
  assert (Hrun : forall h l4,
            upstream (url_of argv) tr [EvOpen] = (Return h, l4) ->
            main argv tr [] =
            match tr (requests_of l4 ++ [delete_request (url_of argv) h]) with
            | Answer resp =>
                (Return tt,
                 l4 ++ [EvRequest (delete_request (url_of argv) h);
                        EvPrint (closed_line (status_code resp)); EvClose])
            | Failure =>
                (Raise RequestError,
                 l4 ++ [EvRequest (delete_request (url_of argv) h); EvClose])
            end).
  { intros h l4 EU.
    rewrite main_unfold, lifecycle_upstream, EU, step_close_run.
    destruct (tr _); simpl; now rewrite <- app_assoc. }
  split; [exact Hrun|]. split.
  - intros Hret.
    destruct (upstream (url_of argv) tr [EvOpen]) as [[h|e] l4] eqn:EU.
    + specialize (Hrun h l4 eq_refl). rewrite Hrun in Hret.
      destruct (tr (requests_of l4 ++ [delete_request (url_of argv) h]))
        as [resp|] eqn:Etr; [|discriminate].
      now exists h, l4, resp.
    + rewrite main_unfold, lifecycle_upstream, EU in Hret. discriminate.
  - intros (h & l4 & resp & EU & Etr).
    now rewrite (Hrun h l4 EU), Etr.
Qed.

(** ** The scope of the client *)

Section AppendsIo.

Context {A B : Type}.

Lemma appends_io_ret (a : A) : appends_io (ret a).
Proof. intros tr l. exists []. simpl. now rewrite app_nil_r. Qed.

Lemma appends_io_lift (o : outcome A) : appends_io (lift o).
Proof. intros tr l. exists []. simpl. now rewrite app_nil_r. Qed.

Lemma appends_io_bind (m : M A) (k : A -> M B) :
  appends_io m -> (forall a, appends_io (k a)) -> appends_io (bind m k).
Proof.
  intros Hm Hk tr l. unfold bind.
  destruct (Hm tr l) as (ext1 & E1 & F1).
  destruct (m tr l) as [[a|e] l1]; simpl in *; subst l1.
  - destruct (Hk a tr (l ++ ext1)) as (ext2 & E2 & F2).
    exists (ext1 ++ ext2). rewrite E2, app_assoc. split; [reflexivity|].
    rewrite forallb_app, F1, F2. reflexivity.
  - now exists ext1.
Qed.

End AppendsIo.

Lemma appends_io_print (p : line) : appends_io (print p).
Proof. intros tr l. now exists [EvPrint p]. Qed.

Lemma appends_io_send (r : request) : appends_io (send r).
Proof. intros tr l. rewrite send_run. now exists [EvRequest r]. Qed.

Ltac appends_io_steps :=
  repeat first
    [ apply appends_io_print | apply appends_io_ret | apply appends_io_lift
    | apply appends_io_send | apply appends_io_bind; [| intros ?] ].

Lemma appends_io_for_each (body : json -> M unit) (items : list json) :
  (forall t, appends_io (body t)) -> appends_io (for_each body items).
Proof.
  intros Hbody. induction items as [|t items IH]; simpl.
  - apply appends_io_ret.
  - apply appends_io_bind; [apply Hbody | intros ?; exact IH].
Qed.

Lemma appends_io_list_tools (url : string) (h : list (string * string)) :
  appends_io (step_list_tools url h).
Proof.
  unfold step_list_tools, client_post.
  do 8 (apply appends_io_bind;
        [first [apply appends_io_send | apply appends_io_lift | apply appends_io_print]
        | intros ?]).
  apply appends_io_bind; [| intros ?; apply appends_io_print].
  apply appends_io_for_each. intros t. unfold print_tool. appends_io_steps.
Qed.

Lemma appends_io_call_tool (url : string) (h : list (string * string)) :
  appends_io (step_call_tool url h).
Proof.
  unfold step_call_tool, client_post.
  do 4 (apply appends_io_bind;
        [first [apply appends_io_send | apply appends_io_lift] | intros ?]).
  unfold report_result.
  apply appends_io_bind; [apply appends_io_lift | intros is_error].
  apply appends_io_bind; [| intros ?; apply appends_io_print].
  destruct (truthy is_error); appends_io_steps.
Qed.

Lemma appends_io_lifecycle (url : string) : appends_io (lifecycle url).
Proof.
  unfold lifecycle.
  apply appends_io_bind;
    [unfold step_initialize, client_post; appends_io_steps | intros s].
  apply appends_io_bind;
    [unfold step_notify_initialized, client_post; appends_io_steps | intros ?].
  apply appends_io_bind; [apply appends_io_list_tools | intros ?].
  apply appends_io_bind; [apply appends_io_call_tool | intros ?].
  unfold step_close, client_delete. appends_io_steps.
Qed.

(** X9: in every run the client is opened once, before anything else, and
    closed once, after everything else: all the requests and all the output
    of the run lie between the two, so nothing is ever sent through a closed
    client. *)
Theorem client_is_open_around_the_run (argv : list string) (tr : transport) :
  exists events,
    snd (main argv tr []) = EvOpen :: events ++ [EvClose]
    /\ forallb is_io events = true
    /\ requests_of (snd (main argv tr [])) = requests_of events
    /\ output_of (snd (main argv tr [])) = output_of events.
Proof.
  rewrite main_unfold. simpl snd.
  destruct (appends_io_lifecycle (url_of argv) tr [EvOpen]) as (ext & E & F).
  exists ext. rewrite E. simpl app.
  split; [reflexivity|]. split; [exact F|].
  simpl. rewrite requests_of_app, output_of_app. simpl.
  now rewrite !app_nil_r.
Qed.

(** ** Where the exception of the transport comes from *)

Section NeverRequestError.

Context {A B : Type}.

Lemma never_ret (a : A) : never_request_error (ret a).
Proof. intros tr l. discriminate. Qed.

Lemma never_lift (o : outcome A) :
  o <> Raise RequestError -> never_request_error (lift o).
Proof. intros H tr l. exact H. Qed.

Lemma never_bind (m : M A) (k : A -> M B) :
  never_request_error m -> (forall a, never_request_error (k a)) ->
  never_request_error (bind m k).
Proof.
  intros Hm Hk tr l. unfold bind.
  specialize (Hm tr l).
  destruct (m tr l) as [[a|e] l1]; simpl in *.
  - apply Hk.
  - congruence.
Qed.

Lemma reports_send_bind (r : request) (k : response -> M B) :
  (forall resp, never_request_error (k resp)) ->
  reports_transport r (bind (send r) k).
Proof.
  intros Hk tr l. unfold bind. rewrite send_run.
  destruct (tr (requests_of l ++ [r])) as [resp|].
  - split; [intros H; now apply Hk in H | discriminate].
  - split; reflexivity.
Qed.

End NeverRequestError.

Lemma never_print (p : line) : never_request_error (print p).
Proof. intros tr l. discriminate. Qed.

Ltac data_error :=
  intros;
  repeat match goal with
         | |- context [match ?x with _ => _ end] => destruct x
         | |- context [if ?b then _ else _] => destruct b
         end;
  discriminate.

Lemma raise_for_status_kind (r : response) :
  raise_for_status r <> Raise RequestError.
Proof. unfold raise_for_status. data_error. Qed.

Lemma headers_getitem_kind (h : list (string * string)) (key : string) :
  headers_getitem h key <> Raise RequestError.
Proof. unfold headers_getitem. data_error. Qed.

Lemma resp_json_kind (r : response) : resp_json r <> Raise RequestError.
Proof. unfold resp_json, fault_exn. data_error. Qed.

Lemma getitem_str_kind (v : json) (k : string) :
  getitem_str v k <> Raise RequestError.
Proof. unfold getitem_str. data_error. Qed.

Lemma getitem_int_kind (v : json) (i : Z) :
  getitem_int v i <> Raise RequestError.
Proof. unfold getitem_int, seq_getitem. data_error. Qed.

Lemma get_kind (v : json) (k : string) (d : json) :
  get v k d <> Raise RequestError.
Proof. unfold get. data_error. Qed.

Lemma slice_to_kind (n : nat) (v : json) : slice_to n v <> Raise RequestError.
Proof. unfold slice_to. data_error. Qed.

Lemma len_kind (v : json) : len v <> Raise RequestError.
Proof. unfold len. data_error. Qed.

Lemma iter_kind (v : json) : iter v <> Raise RequestError.
Proof. unfold iter. data_error. Qed.

Create HintDb py_kinds.
#[local] Hint Resolve raise_for_status_kind headers_getitem_kind resp_json_kind
  getitem_str_kind getitem_int_kind get_kind slice_to_kind len_kind iter_kind
  : py_kinds.

Ltac never_steps :=
  repeat first
    [ apply never_print | apply never_ret
    | apply never_lift; solve [auto with py_kinds]
    | apply never_bind; [| intros ?] ].

Lemma never_for_each (body : json -> M unit) (items : list json) :
  (forall t, never_request_error (body t)) ->
  never_request_error (for_each body items).
Proof.
  intros Hbody. induction items as [|t items IH]; simpl.
  - apply never_ret.
  - apply never_bind; [apply Hbody | intros ?; exact IH].
Qed.

Lemma reports_initialize (url : string) :
  reports_transport (init_request url) (step_initialize url).
Proof.
  intros tr l. rewrite step_initialize_send. revert tr l.
  apply reports_send_bind. intros resp. never_steps.
Qed.

Lemma reports_notify (url : string) (h : list (string * string)) :
  reports_transport (notify_request url h) (step_notify_initialized url h).
Proof.
  intros tr l. rewrite step_notify_send. revert tr l.
  apply reports_send_bind. intros resp. apply never_ret.
Qed.

Lemma reports_list_tools (url : string) (h : list (string * string)) :
  reports_transport (list_request url h) (step_list_tools url h).
Proof.
  intros tr l. rewrite step_list_tools_send. revert tr l.
  apply reports_send_bind. intros resp.
  do 7 (apply never_bind;
        [first [apply never_print | apply never_lift; solve [auto with py_kinds]]
        | intros ?]).
  apply never_bind; [| intros ?; apply never_print].
  apply never_for_each. intros t. unfold print_tool. never_steps.
Qed.

Lemma reports_call_tool (url : string) (h : list (string * string)) :
  reports_transport (call_request url h) (step_call_tool url h).
Proof.
  intros tr l. rewrite step_call_tool_send. revert tr l.
  apply reports_send_bind. intros resp.
  do 3 (apply never_bind;
        [apply never_lift; solve [auto with py_kinds] | intros ?]).
  unfold report_result.
  apply never_bind; [apply never_lift; auto with py_kinds | intros is_error].
  apply never_bind; [| intros ?; apply never_print].
  destruct (truthy is_error); never_steps.
Qed.

Lemma reports_close (url : string) (h : list (string * string)) :
  reports_transport (delete_request url h) (step_close url h).
Proof.
  intros tr l. rewrite step_close_run.
  destruct (tr (requests_of l ++ [delete_request url h]));
    split; try discriminate; reflexivity.
Qed.

Lemma raise_eq_iff {A B : Type} (e e' : exn) :
  @Raise A e = Raise e' <-> @Raise B e = Raise e'.
Proof. split; intros H; inversion H; reflexivity. Qed.

Lemma lifecycle_reports (url : string) (tr : transport) (l : log) :
  fst (lifecycle url tr l) = Raise RequestError
  <-> tr (requests_of (snd (lifecycle url tr l))) = Failure.
Proof.
  unfold lifecycle, bind.
  pose proof (reports_initialize url tr l) as T1.
  destruct (step_initialize url tr l) as [[[sid si]|e] l1] eqn:E1;
    pose proof (sends_one_run _ _ _ _ _ _ (sends_one_initialize url) E1) as R1;
    simpl fst in *; simpl snd.
  2:{ rewrite R1, <- T1. apply raise_eq_iff. }
  pose proof (reports_notify url (session_headers sid) tr l1) as T2.
  destruct (step_notify_initialized url (session_headers sid) tr l1)
    as [[[]|e] l2] eqn:E2;
    pose proof (sends_one_run _ _ _ _ _ _ (sends_one_notify url _) E2) as R2;
    simpl fst in *; simpl snd.
  2:{ rewrite R2, <- T2. apply raise_eq_iff. }
  pose proof (reports_list_tools url (session_headers sid) tr l2) as T3.
  destruct (step_list_tools url (session_headers sid) tr l2)
    as [[[]|e] l3] eqn:E3;
    pose proof (sends_one_run _ _ _ _ _ _ (sends_one_list_tools url _) E3) as R3;
    simpl fst in *; simpl snd.
  2:{ rewrite R3, <- T3. apply raise_eq_iff. }
  pose proof (reports_call_tool url (session_headers sid) tr l3) as T4.
  destruct (step_call_tool url (session_headers sid) tr l3)
    as [[[]|e] l4] eqn:E4;
    pose proof (sends_one_run _ _ _ _ _ _ (sends_one_call_tool url _) E4) as R4;
    simpl fst in *; simpl snd.
  2:{ rewrite R4, <- T4. apply raise_eq_iff. }
  rewrite (sends_one_close url (session_headers sid) tr l4).
  apply reports_close.
Qed.

(** X10: a run ends with the exception of the transport exactly when the
    transport failed on the last request the run sent; a lookup, type or
    status error never shows up as a transport error, and a transport
    failure is never swallowed. *)
Theorem run_raises_request_error_iff (argv : list string) (tr : transport) :
  fst (main argv tr []) = Raise RequestError
  <-> tr (requests_of (snd (main argv tr []))) = Failure.
Proof.
  rewrite main_requests, main_unfold. simpl fst.
  apply lifecycle_reports.
Qed.

(** ** The session header, whatever its case *)

Lemma filter_none {A} (f : A -> bool) (l : list A) :
  (forall x, In x l -> f x = false) -> filter f l = [].
Proof.
  induction l as [|x l IH]; simpl; intros H; [reflexivity|].
  rewrite (H x (or_introl eq_refl)). apply IH. intros y Hy. apply H. now right.
Qed.

Lemma headers_getitem_single (h1 h2 : list (string * string))
    (name v key : string) :
  lower name = lower key ->
  (forall kv, In kv (h1 ++ h2) -> lower (fst kv) <> lower key) ->
  headers_getitem (h1 ++ (name, v) :: h2) key = Return v.
Proof.
  intros Hname Hothers. unfold headers_getitem.
  assert (Hnone : forall h, (forall kv, In kv h -> In kv (h1 ++ h2)) ->
            filter (fun kv => String.eqb (lower (fst kv)) (lower key)) h = []).
  { intros h Hsub. apply filter_none. intros kv Hin.
    apply String.eqb_neq. apply Hothers, Hsub, Hin. }
  rewrite filter_app. simpl filter. simpl fst.
  rewrite Hname, String.eqb_refl.
  rewrite (Hnone h1) by (intros kv Hin; apply in_or_app; now left).
  rewrite (Hnone h2) by (intros kv Hin; apply in_or_app; now right).
  reflexivity.
Qed.

(** X11: the session header of the initialize response is found whatever
    the case of its name.  When the response has exactly one header whose
    name is Mcp-Session-Id up to case, its value is the session identifier,
    and every later request of the run carries it under the name
    Mcp-Session-Id as the script spells it. *)
Theorem session_header_found_in_any_case (argv : list string) (tr : transport)
    (resp : response) (h1 h2 : list (string * string)) (name v : string) :
  tr [init_request (url_of argv)] = Answer resp ->
  resp_headers resp = h1 ++ (name, v) :: h2 ->
  lower name = "mcp-session-id" ->
  (forall kv, In kv (h1 ++ h2) -> lower (fst kv) <> "mcp-session-id") ->
  headers_getitem (resp_headers resp) "mcp-session-id" = Return v
  /\ Forall (fun r => req_headers r = [("Mcp-Session-Id", v)])
       (tl (requests_of (snd (main argv tr [])))).
Proof.
  intros Htr Hh Hname Hothers.
  assert (Hsid : headers_getitem (resp_headers resp) "mcp-session-id" = Return v).
  { rewrite Hh. now apply headers_getitem_single. }
  split; [exact Hsid|].
  destruct (main_requests_cases argv tr)
    as [(e & _ & _ & R) | (sid & si & l1 & n & E1 & _ & R & _)]; rewrite R.
  - constructor.
  - destruct (step_initialize_returns _ _ _ _ _ _ E1)
      as (resp' & body & result & nm & version & Htr' & _ & Hsid' & _).
    simpl in Htr'. rewrite Htr in Htr'. inversion Htr'; subst resp'.
    rewrite Hsid in Hsid'. inversion Hsid'; subst sid.
    simpl tl. apply Forall_forall. intros r Hin.
    apply In_firstn in Hin. simpl in Hin.
    destruct Hin as [<-|[<-|[<-|[<-|[]]]]]; reflexivity.
Qed.

Lemma session_header_found_in_any_case_witness :
  (fun _ => Answer shouting_initialize) [init_request (url_of [])]
  = Answer shouting_initialize
  /\ headers_getitem (resp_headers shouting_initialize) "mcp-session-id"
     = Return "abc123"
  /\ Forall (fun r => req_headers r = [("Mcp-Session-Id", "abc123")])
       (tl (requests_of (snd (main [] (fun _ => Answer shouting_initialize) [])))).
Proof.
  split; [reflexivity|].
  refine (session_header_found_in_any_case [] (fun _ => Answer shouting_initialize)
            shouting_initialize [("Content-Type", "application/json")] []
            "MCP-SESSION-ID" "abc123" eq_refl eq_refl eq_refl _).
  intros kv [<-|[]]. simpl. discriminate.
Defined.

(** ** What initialize needs of serverInfo *)

(** X12: line 32 reads [serverInfo["name"]] and [serverInfo["version"]].
    A 2xx initialize response that has the session header and a
    [serverInfo] dict without one of the two makes step 1 raise [KeyError]
    although the server issued a session: the run prints nothing and sends
    neither the notification nor a DELETE for that session. *)
Theorem initialize_needs_name_and_version (argv : list string) (tr : transport)
    (resp : response) (sid : string) (body result : json) (info : dict) :
  let url := url_of argv in
  tr [init_request url] = Answer resp ->
  is_success resp = true ->
  headers_getitem (resp_headers resp) "mcp-session-id" = Return sid ->
  resp_body resp = Some body ->
  getitem_str body "result" = Return result ->
  getitem_str result "serverInfo" = Return (JObj info) ->
  (dict_lookup "name" info = None
   \/ (dict_lookup "name" info <> None /\ dict_lookup "version" info = None)) ->
  exists key,
    (key = "name" \/ key = "version")
    /\ main argv tr []
       = (Raise (KeyError (JStr key)), [EvOpen; EvRequest (init_request url); EvClose]).
Proof.
  intros url Htr Hok Hsid Hbody Hres Hinfo Hmissing.
  assert (E : exists key,
            (key = "name" \/ key = "version")
            /\ step_initialize url tr [EvOpen]
               = (Raise (KeyError (JStr key)), [EvOpen; EvRequest (init_request url)])).
  { rewrite step_initialize_send. unfold bind at 1. rewrite send_run.
    simpl requests_of. simpl app. rewrite Htr.
    unfold bind, lift, raise_for_status.
    rewrite Hok, Hsid, (resp_json_of_body _ _ Hbody), Hres, Hinfo. simpl getitem_str.
    destruct Hmissing as [Hn | [Hn Hv]].
    - exists "name". rewrite Hn. split; [now left | reflexivity].
    - exists "version".
      destruct (dict_lookup "name" info) as [nm|]; [|contradiction].
      rewrite Hv. split; [now right | reflexivity]. }
  destruct E as (key & Hkey & E). exists key. split; [exact Hkey|].
  now rewrite (main_initialize_raises argv tr _ _ E).
Qed.

Lemma initialize_needs_name_and_version_witness :
  (fun _ => Answer unversioned_initialize) [init_request (url_of [])]
  = Answer unversioned_initialize
  /\ is_success unversioned_initialize = true
  /\ exists key,
    (key = "name" \/ key = "version")
    /\ main [] (fun _ => Answer unversioned_initialize) []
       = (Raise (KeyError (JStr key)),
          [EvOpen; EvRequest (init_request (url_of [])); EvClose]).
Proof.
  split; [reflexivity|]. split; [reflexivity|].
  refine (initialize_needs_name_and_version [] (fun _ => Answer unversioned_initialize)
            unversioned_initialize "abc123" _ _ [("name", JStr "demo")]
            eq_refl eq_refl eq_refl eq_refl eq_refl eq_refl _).
  right. split; [discriminate | reflexivity].
Defined.

(** ** Where a status error comes from *)

Section OnlyData.

Context {A B : Type}.

Lemma only_data_ret (a : A) : raises_only_data (ret a).
Proof. intros tr l e H. discriminate H. Qed.

Lemma only_data_lift (o : outcome A) :
  (forall e, o = Raise e -> is_data_error e = true) ->
  raises_only_data (lift o).
Proof. intros H tr l e. apply H. Qed.

Lemma only_data_bind (m : M A) (k : A -> M B) :
  raises_only_data m -> (forall a, raises_only_data (k a)) ->
  raises_only_data (bind m k).
Proof.
  intros Hm Hk tr l e. unfold bind.
  specialize (Hm tr l).
  destruct (m tr l) as [[a|e'] l1]; simpl in *.
  - apply Hk.
  - intros H. apply Hm. inversion H. reflexivity.
Qed.

Lemma checks_status_send (r : request) (k : response -> unit -> M B) :
  (forall resp u, raises_only_data (k resp u)) ->
  checks_status r
    (bind (send r) (fun resp => bind (lift (raise_for_status resp)) (k resp))).
Proof.
  intros Hk tr l s. unfold bind at 1. rewrite send_run.
  destruct (tr (requests_of l ++ [r])) as [resp|].
  - unfold bind, lift, raise_for_status.
    destruct (is_success resp) eqn:Hok.
    + split.
      * intros H. apply Hk in H. discriminate H.
      * intros (resp' & Hr & Hbad & _). inversion Hr; subst resp'. congruence.
    + simpl. split.
      * intros H. inversion H. now exists resp.
      * intros (resp' & Hr & _ & Hs). inversion Hr; subst resp'. now rewrite Hs.
  - simpl. split; [discriminate|].
    intros (resp' & Hr & _). discriminate Hr.
Qed.

End OnlyData.

Lemma only_data_print (p : line) : raises_only_data (print p).
Proof. intros tr l e H. discriminate H. Qed.

Ltac data_kind :=
  intros;
  repeat match goal with
         | H : context [match ?x with _ => _ end] |- _ => destruct x
         | H : context [if ?b then _ else _] |- _ => destruct b
         end;
  match goal with
  | H : _ = Raise _ |- _ => first [discriminate H | inversion H; reflexivity]
  end.

Lemma headers_getitem_data (h : list (string * string)) (key : string) (e : exn) :
  headers_getitem h key = Raise e -> is_data_error e = true.
Proof. unfold headers_getitem. data_kind. Qed.

Lemma resp_json_data (r : response) (e : exn) :
  resp_json r = Raise e -> is_data_error e = true.
Proof. unfold resp_json, fault_exn. data_kind. Qed.

Lemma getitem_str_data (v : json) (k : string) (e : exn) :
  getitem_str v k = Raise e -> is_data_error e = true.
Proof. unfold getitem_str. data_kind. Qed.

Lemma getitem_int_data (v : json) (i : Z) (e : exn) :
  getitem_int v i = Raise e -> is_data_error e = true.
Proof. unfold getitem_int, seq_getitem. data_kind. Qed.

Lemma get_data (v : json) (k : string) (d : json) (e : exn) :
  get v k d = Raise e -> is_data_error e = true.
Proof. unfold get. data_kind. Qed.

Lemma slice_to_data (n : nat) (v : json) (e : exn) :
  slice_to n v = Raise e -> is_data_error e = true.
Proof. unfold slice_to. data_kind. Qed.

Lemma len_data (v : json) (e : exn) :
  len v = Raise e -> is_data_error e = true.
Proof. unfold len. data_kind. Qed.

Lemma iter_data (v : json) (e : exn) :
  iter v = Raise e -> is_data_error e = true.
Proof. unfold iter. data_kind. Qed.

Create HintDb py_data.
#[local] Hint Resolve headers_getitem_data resp_json_data getitem_str_data
  getitem_int_data get_data slice_to_data len_data iter_data : py_data.

Ltac only_data_steps :=
  repeat first
    [ apply only_data_print | apply only_data_ret
    | apply only_data_lift; solve [eauto with py_data]
    | apply only_data_bind; [| intros ?] ].

Lemma only_data_for_each (body : json -> M unit) (items : list json) :
  (forall t, raises_only_data (body t)) ->
  raises_only_data (for_each body items).
Proof.
  intros Hbody. induction items as [|t items IH]; simpl.
  - apply only_data_ret.
  - apply only_data_bind; [apply Hbody | intros ?; exact IH].
Qed.

Lemma checks_status_initialize (url : string) :
  checks_status (init_request url) (step_initialize url).
Proof.
  intros tr l s. rewrite step_initialize_send. revert tr l s.
  apply checks_status_send. intros resp u. only_data_steps.
Qed.

Lemma checks_status_list_tools (url : string) (h : list (string * string)) :
  checks_status (list_request url h) (step_list_tools url h).
Proof.
  intros tr l s. rewrite step_list_tools_send. revert tr l s.
  apply checks_status_send. intros resp u.
  do 6 (apply only_data_bind;
        [first [apply only_data_print
               | apply only_data_lift; solve [eauto with py_data]]
        | intros ?]).
  apply only_data_bind; [| intros ?; apply only_data_print].
  apply only_data_for_each. intros t. unfold print_tool. only_data_steps.
Qed.

Lemma checks_status_call_tool (url : string) (h : list (string * string)) :
  checks_status (call_request url h) (step_call_tool url h).
Proof.
  intros tr l s. rewrite step_call_tool_send. revert tr l s.
  apply checks_status_send. intros resp u.
  do 2 (apply only_data_bind;
        [apply only_data_lift; solve [eauto with py_data] | intros ?]).
  unfold report_result.
  apply only_data_bind; [apply only_data_lift; eauto with py_data | intros is_error].
  apply only_data_bind; [| intros ?; apply only_data_print].
  destruct (truthy is_error); only_data_steps.
Qed.

Lemma notify_ignores_status (url : string) (h : list (string * string))
    (tr : transport) (l : log) (s : Z) :
  fst (step_notify_initialized url h tr l) <> Raise (HTTPStatusError s).
Proof.
  rewrite step_notify_send. unfold bind. rewrite send_run.
  destruct (tr _); discriminate.
Qed.

Lemma close_ignores_status (url : string) (h : list (string * string))
    (tr : transport) (l : log) (s : Z) :
  fst (step_close url h tr l) <> Raise (HTTPStatusError s).
Proof. rewrite step_close_run. destruct (tr _); discriminate. Qed.

Lemma raise_inj_iff {A : Type} (e e' : exn) : @Raise A e = Raise e' <-> e = e'.
Proof. split; intros H; [now inversion H | now subst]. Qed.

Lemma lifecycle_status_error (url : string) (tr : transport) (l : log) (s : Z) :
  fst (lifecycle url tr l) = Raise (HTTPStatusError s)
  <-> exists resp,
      tr (requests_of (snd (lifecycle url tr l))) = Answer resp
      /\ is_success resp = false
      /\ status_code resp = s
      /\ request_id (last (requests_of (snd (lifecycle url tr l))) (init_request url))
         <> None.
Proof.
  assert (Hstep : forall (e : exn) (reqs : list request) (r : request),
            request_id r <> None ->
            (e = HTTPStatusError s
             <-> exists resp, tr (reqs ++ [r]) = Answer resp
                 /\ is_success resp = false /\ status_code resp = s) ->
            (e = HTTPStatusError s
             <-> exists resp, tr (reqs ++ [r]) = Answer resp
                 /\ is_success resp = false /\ status_code resp = s
                 /\ request_id (last (reqs ++ [r]) (init_request url)) <> None)).
  { intros e reqs r Hr T. rewrite last_last. split.
    - intros H. apply T in H. destruct H as (resp & H1 & H2 & H3).
      exists resp. auto.
    - intros (resp & H1 & H2 & H3 & _). apply T. now exists resp. }
  assert (Hnone : forall (e : exn) (reqs : list request) (r : request),
            request_id r = None ->
            e <> HTTPStatusError s ->
            (e = HTTPStatusError s
             <-> exists resp, tr (reqs ++ [r]) = Answer resp
                 /\ is_success resp = false /\ status_code resp = s
                 /\ request_id (last (reqs ++ [r]) (init_request url)) <> None)).
  { intros e reqs r Hr He. rewrite last_last. split; [contradiction|].
    intros (resp & _ & _ & _ & H). contradiction. }
  unfold lifecycle, bind.
  pose proof (checks_status_initialize url tr l s) as T1.
  destruct (step_initialize url tr l) as [[[sid si]|e] l1] eqn:E1;
    pose proof (sends_one_run _ _ _ _ _ _ (sends_one_initialize url) E1) as R1;
    simpl fst in *; simpl snd.
  2:{ rewrite R1. rewrite raise_inj_iff in T1. rewrite raise_inj_iff.
      apply Hstep; [discriminate | exact T1]. }
  pose proof (notify_ignores_status url (session_headers sid) tr l1 s) as T2.
  destruct (step_notify_initialized url (session_headers sid) tr l1)
    as [[[]|e] l2] eqn:E2;
    pose proof (sends_one_run _ _ _ _ _ _ (sends_one_notify url _) E2) as R2;
    simpl fst in *; simpl snd.
  2:{ rewrite R2. rewrite raise_inj_iff.
      apply Hnone; [reflexivity | congruence]. }
  pose proof (checks_status_list_tools url (session_headers sid) tr l2 s) as T3.
  destruct (step_list_tools url (session_headers sid) tr l2)
    as [[[]|e] l3] eqn:E3;
    pose proof (sends_one_run _ _ _ _ _ _ (sends_one_list_tools url _) E3) as R3;
    simpl fst in *; simpl snd.
  2:{ rewrite R3. rewrite raise_inj_iff in T3. rewrite raise_inj_iff.
      apply Hstep; [discriminate | exact T3]. }
  pose proof (checks_status_call_tool url (session_headers sid) tr l3 s) as T4.
  destruct (step_call_tool url (session_headers sid) tr l3)
    as [[[]|e] l4] eqn:E4;
    pose proof (sends_one_run _ _ _ _ _ _ (sends_one_call_tool url _) E4) as R4;
    simpl fst in *; simpl snd.
  2:{ rewrite R4. rewrite raise_inj_iff in T4. rewrite raise_inj_iff.
      apply Hstep; [discriminate | exact T4]. }
  pose proof (close_ignores_status url (session_headers sid) tr l4 s) as T5.
  rewrite (sends_one_close url (session_headers sid) tr l4).
  rewrite last_last. split; [contradiction|].
  intros (resp & _ & _ & _ & H). now contradiction H.
Qed.

(** X13: a run ends with [HTTPStatusError] for the status [s] exactly when
    the last request it sent is one of those that carry an id (initialize,
    tools/list, tools/call) and was answered with the status [s], not 2xx.
    A status that is not 2xx in answer to the notification or to the DELETE
    never raises. *)
Theorem run_raises_status_error_iff (argv : list string) (tr : transport) (s : Z) :
  fst (main argv tr []) = Raise (HTTPStatusError s)
  <-> exists resp,
      tr (requests_of (snd (main argv tr []))) = Answer resp
      /\ is_success resp = false
      /\ status_code resp = s
      /\ request_id (last (requests_of (snd (main argv tr [])))
                         (init_request (url_of argv)))
         <> None.
Proof.
  rewrite main_requests, main_unfold. simpl fst.
  apply lifecycle_status_error.
Qed.
